(** * isar-exr: the GraphQL client of the Energy Robotics API

    A shallow embedding of [src/isar_exr/api/graphql_client.py], the class
    [GraphqlClient]: its constructor, the two session builders and the
    method [query] with its reauthenticate-and-retry protocol.

    The class owns no algorithm of its own beyond the retry protocol: the
    token source, the schema file, the GraphQL parser and the gql transport are
    collaborators.  They are the fields of the class [Collaborators], functions
    over an abstract [World], and every theorem holds for all its instances. *)

From Stdlib Require Import ZArith.
From stdpp Require Import base option strings gmap list.

Set Warnings "-register-all".
Open Scope Z_scope.
Open Scope string_scope.
Open Scope list_scope.

(** ** Python values *)

(** The values of [typing.Any] that a JSON response or a variable mapping
    holds. *)
Inductive Any : Type :=
| PyNone
| PyBool (b : bool)
| PyInt (z : Z)
| PyStr (s : string)
| PyList (l : list Any)
| PyDict (d : list (string * Any)).

(** ** Exceptions

    An [exn] is an instance of Python's [Exception].  The classes the
    [except] clauses of [query] name are pairwise unrelated by inheritance
    (gql's transport errors derive from gql's [TransportError], the two
    timeouts from httpx's [TimeoutException], [GraphQLError] from
    [Exception]), so one constructor per class is the whole case analysis;
    [OtherException] is any instance of [Exception] of none of these
    classes. *)
Inductive exn : Type :=
| GraphQLError (message : string) (locations : list string)
| TransportProtocolError (msg : string)
| TransportQueryError (msg : string) (errors : option (list Any))
| TransportClosed (msg : string)
| TransportServerError (msg : string) (code : option Z)
| TransportAlreadyConnected (msg : string)
| ReadTimeout (msg : string)
| ConnectTimeout (msg : string)
| OtherException (cls : string) (msg : string).

(** What [str.join] puts between two parts of a printed [GraphQLError]: an
    empty line. *)
Definition paragraph_break : string :=
  String (Ascii.ascii_of_nat 10) (String (Ascii.ascii_of_nat 10) "").

(** [str(e)].  A [GraphQLError] prints its message and then, when it is
    located in a document, each of its [locations] as printed by graphql-core,
    one empty line between the parts; every other class prints the message it
    was made with. *)
Definition exn_str (e : exn) : string :=
  match e with
  | GraphQLError m locations =>
    fold_left (λ printed location, printed +:+ paragraph_break +:+ location)
      locations m
  | TransportProtocolError m | TransportQueryError m _
  | TransportClosed m | TransportServerError m _ | TransportAlreadyConnected m
  | ReadTimeout m | ConnectTimeout m | OtherException _ m => m
  end.

(** Reading an attribute that no assignment has created yet. *)
Definition AttributeError (attr : string) : exn :=
  OtherException "AttributeError"
    ("'GraphqlClient' object has no attribute '" +:+ attr +:+ "'").

(** How a call ends: with a value, or with an exception in flight. *)
Inductive outcome (A : Type) : Type :=
| Return (a : A)
| Raise (e : exn).
Arguments Return {A} a.
Arguments Raise {A} e.

(** ** gql objects built by the class *)

(** [HTTPXTransport(url=..., headers=...)] *)
Record HTTPXTransport : Type := {
  url : string;
  headers : gmap string string;
}.

Inductive level : Type := ERROR | CRITICAL.

Section graphql_client.

(** The opaque objects of graphql-core and gql, and the world outside the
    process (token service, file system, API server). *)
Context {DocumentNode GraphQLSchema SyncClientSession World : Type}.

(** [Client(transport=..., schema=...)] *)
Record Client : Type := {
  transport : HTTPXTransport;
  client_schema : GraphQLSchema;
}.

(** [DSLSchema(schema)] *)
Record DSLSchema : Type := { _schema : GraphQLSchema }.

(** What the class imports and does not define. *)
Class Collaborators : Type := {
  (** [isar_exr.config.settings] *)
  ROBOT_API_URL : string;
  PATH_TO_GRAPHQL_SCHEMA : string;
  (** [isar_exr.api.authentication.get_access_token()] *)
  get_access_token : World → outcome string * World;
  (** [open(path, encoding="utf-8")] followed by [source.read()] *)
  open_read : string → World → outcome string * World;
  (** [graphql.parse] and [graphql.build_ast_schema] *)
  parse : string → outcome DocumentNode;
  build_ast_schema : DocumentNode → outcome GraphQLSchema;
  (** [Client.connect_sync()] *)
  connect_sync : Client → World → outcome SyncClientSession * World;
  (** [SyncClientSession.execute(document, variable_values)] *)
  execute :
    SyncClientSession → DocumentNode → gmap string Any → World →
    outcome (gmap string Any) * World;
  (** The text an f-string puts for [{e.errors}]. *)
  format_errors : option (list Any) → string;
}.
Context `{!Collaborators}.

(** ** The object *)

(** The attributes of a [GraphqlClient].  The four that
    [_initialize_session] assigns do not exist before it has run: [None]
    until then.  ([logger] is the trace below.) *)
Record GraphqlClient : Type := {
  _reauthenticated : bool;
  document : option DocumentNode;
  client : option Client;
  schema : option DSLSchema;
  session : option SyncClientSession;
}.

(** ** Observable effects

    Every call that leaves the class, in program order and with the way it
    ended, every log record, and every assignment to the retry flag. *)
Inductive event : Type :=
| EvGetAccessToken (o : outcome string)
| EvOpenRead (path : string) (o : outcome string)
| EvParse (source : string)
| EvBuildAstSchema (d : DocumentNode)
| EvConnectSync (c : Client) (o : outcome SyncClientSession)
| EvExecute (s : SyncClientSession) (q : DocumentNode)
    (variables : gmap string Any) (o : outcome (gmap string Any))
| EvLog (lvl : level) (msg : string)
| EvSetReauthenticated (b : bool).

(** ** The monad of method bodies: state [self], the world, exceptions and
    the trace.  [None] is a call stack that ran out (see [query]). *)
Record res (A : Type) : Type := Res {
  out : outcome A;
  self_after : GraphqlClient;
  world_after : World;
  trace : list event;
}.
Arguments Res {A} _ _ _ _.
Arguments out {A} _.
Arguments self_after {A} _.
Arguments world_after {A} _.
Arguments trace {A} _.

Definition M (A : Type) : Type := GraphqlClient → World → option (res A).

(** What happened before [r], put in front of its trace. *)
Definition after {A} (t : list event) (r : res A) : res A :=
  Res (out r) (self_after r) (world_after r) (t ++ trace r).

Definition ret {A} (a : A) : M A := λ self w, Some (Res (Return a) self w []).
Definition raise {A} (e : exn) : M A := λ self w, Some (Res (Raise e) self w []).
Definition bind {A B} (m : M A) (k : A → M B) : M B := λ self w,
  match m self w with
  | None => None
  | Some r =>
    match out r with
    | Return a => after (trace r) <$> k a (self_after r) (world_after r)
    | Raise e => Some (Res (Raise e) (self_after r) (world_after r) (trace r))
    end
  end.

#[local] Instance M_ret : MRet M := @ret.
#[local] Instance M_bind : MBind M := λ A B k m, bind m k.

(** [try: body  except Exception as e: handler e] *)
Definition try_except {A} (body : M A) (handler : exn → M A) : M A := λ self w,
  match body self w with
  | None => None
  | Some r =>
    match out r with
    | Return a => Some r
    | Raise e => after (trace r) <$> handler e (self_after r) (world_after r)
    end
  end.

(** [try: body  finally: final]: [final] runs however [body] ended; the
    outcome of [body] stands unless [final] raises. *)
Definition try_finally {A} (body : M A) (final : M unit) : M A := λ self w,
  match body self w with
  | None => None
  | Some r =>
    match final (self_after r) (world_after r) with
    | None => None
    | Some f =>
      Some (Res (match out f with Return _ => out r | Raise e => Raise e end)
                (self_after f) (world_after f) (trace r ++ trace f))
    end
  end.

(** A call into the world, recorded with its outcome. *)
Definition call {A} (f : World → outcome A * World) (ev : outcome A → event) : M A :=
  λ self w, let '(o, w') := f w in Some (Res o self w' [ev o]).

(** A call of a pure library function. *)
Definition pure_call {A} (o : outcome A) (ev : event) : M A :=
  λ self w, Some (Res o self w [ev]).

Definition emit (ev : event) : M unit := λ self w, Some (Res (Return ()) self w [ev]).

Definition logger_error (msg : string) : M unit := emit (EvLog ERROR msg).
Definition logger_critical (msg : string) : M unit := emit (EvLog CRITICAL msg).

(** Attribute reads *)
Definition get {A} (field : GraphqlClient → A) : M A :=
  λ self w, Some (Res (Return (field self)) self w []).
Definition getattr {A} (name : string) (field : GraphqlClient → option A) : M A :=
  λ self w,
    Some (Res (match field self with
               | Some a => Return a
               | None => Raise (AttributeError name)
               end) self w []).

(** Attribute writes *)
Definition modify (f : GraphqlClient → GraphqlClient) : M unit :=
  λ self w, Some (Res (Return ()) (f self) w []).

Definition with_reauthenticated (b : bool) (self : GraphqlClient) : GraphqlClient :=
  {| _reauthenticated := b; document := document self; client := client self;
     schema := schema self; session := session self |}.
Definition with_document (d : DocumentNode) (self : GraphqlClient) : GraphqlClient :=
  {| _reauthenticated := _reauthenticated self; document := Some d;
     client := client self; schema := schema self; session := session self |}.
Definition with_client (c : Client) (self : GraphqlClient) : GraphqlClient :=
  {| _reauthenticated := _reauthenticated self; document := document self;
     client := Some c; schema := schema self; session := session self |}.
Definition with_schema (d : DSLSchema) (self : GraphqlClient) : GraphqlClient :=
  {| _reauthenticated := _reauthenticated self; document := document self;
     client := client self; schema := Some d; session := session self |}.
Definition with_session (s : SyncClientSession) (self : GraphqlClient) : GraphqlClient :=
  {| _reauthenticated := _reauthenticated self; document := document self;
     client := client self; schema := schema self; session := Some s |}.

(** [self._reauthenticated = b] *)
Definition set_reauthenticated (b : bool) : M unit :=
  emit (EvSetReauthenticated b);; modify (with_reauthenticated b).

Definition newline : string := String (Ascii.ascii_of_nat 10) "".

(** ** The methods *)

Definition _get_updated_auth_header : M (gmap string string) :=
  token ← try_except
            (call get_access_token EvGetAccessToken)
            (λ e, logger_critical
                    ("CRITICAL - Error getting access token: " +:+ newline +:+ exn_str e);;
                  raise e);
  let auth_header : gmap string string := {[ "authorization" := "Bearer " +:+ token ]} in
  mret auth_header.

Definition _refresh_session : M unit :=
  auth_header ← _get_updated_auth_header;
  let transport := {| url := ROBOT_API_URL; headers := auth_header |} in
  d ← getattr "document" document;
  schema ← pure_call (build_ast_schema d) (EvBuildAstSchema d);
  let c := {| transport := transport; client_schema := schema |} in
  modify (with_client c);;
  s ← call (connect_sync c) (EvConnectSync c);
  modify (with_session s).

Definition _initialize_session : M unit :=
  auth_header ← _get_updated_auth_header;
  source ← call (open_read PATH_TO_GRAPHQL_SCHEMA) (EvOpenRead PATH_TO_GRAPHQL_SCHEMA);
  d ← pure_call (parse source) (EvParse source);
  modify (with_document d);;
  d ← getattr "document" document;
  schema ← pure_call (build_ast_schema d) (EvBuildAstSchema d);
  let transport := {| url := ROBOT_API_URL; headers := auth_header |} in
  let c := {| transport := transport; client_schema := schema |} in
  modify (with_client c);;
  c ← getattr "client" client;
  modify (with_schema {| _schema := client_schema c |});;
  c ← getattr "client" client;
  s ← call (connect_sync c) (EvConnectSync c);
  modify (with_session s).

(** [GraphqlClient.query].  The method calls itself in two of its handlers;
    [fuel] is the number of stack frames the call may use, and [None] the
    answer of a call that needs more ([query_total]: two are enough). *)
Fixpoint query (fuel : nat) (query_doc : DocumentNode)
    (query_parameters : gmap string Any) {struct fuel} : M (gmap string Any) :=
  match fuel with
  | O => λ _ _, None
  | S fuel =>
    try_finally
      (try_except
         (s ← getattr "session" session;
          response ← call (execute s query_doc query_parameters)
                          (EvExecute s query_doc query_parameters);
          mret response)
         (λ e,
            match e with
            | GraphQLError message _ =>
                logger_error
                  ("Something went wrong while sending the GraphQL query: " +:+ message);;
                raise e
            | TransportProtocolError _ =>
                reauthenticated ← get _reauthenticated;
                if reauthenticated : bool then
                  logger_error
                    "Transport protocol error - Error in configuration of GraphQL client even after reauthentication";;
                  raise e
                else
                  (* The token might have expired, try again with a new token *)
                  _refresh_session;;
                  set_reauthenticated true;;
                  query fuel query_doc query_parameters
            | TransportQueryError _ errors =>
                logger_error
                  ("The Energy Robotics server returned an error: " +:+ format_errors errors);;
                raise e
            | TransportClosed _ =>
                logger_error "The connection to the GraphQL endpoint is closed";;
                raise e
            | TransportServerError _ code =>
                if bool_decide (code = Some 302) then
                  reauthenticated ← get _reauthenticated;
                  if reauthenticated : bool then
                    logger_error
                      "Transport server error - Error in Energy Robotics server even after reauthentication";;
                    raise e
                  else
                    _refresh_session;;
                    set_reauthenticated true;;
                    query fuel query_doc query_parameters
                else
                  logger_error ("Error in Energy Robotics server: " +:+ exn_str e);;
                  raise e
            | TransportAlreadyConnected _ =>
                logger_error ("The transport is already connected: " +:+ exn_str e);;
                raise e
            | ReadTimeout _ =>
                logger_error ("Request to GraphQL API timed out: " +:+ exn_str e);;
                raise e
            | ConnectTimeout _ =>
                logger_error ("Connection to GraphQL API timed out: " +:+ exn_str e);;
                raise e
            | OtherException _ _ =>
                logger_error ("Unknown error in GraphQL client: " +:+ exn_str e);;
                raise e
            end))
      (set_reauthenticated false)
  end.

(** The object [GraphqlClient()] starts from: no attribute assigned. *)
Definition new_object : GraphqlClient :=
  {| _reauthenticated := false; document := None; client := None;
     schema := None; session := None |}.

(** [GraphqlClient.__init__] *)
Definition __init__ : World → option (res unit) :=
  (set_reauthenticated false;; _initialize_session) new_object.

(** What the caller sees of a retry that ended as [r2]: [first] happened
    before it, then the flag was set; the [finally] clause follows it. *)
Definition retried (first : list event) (r2 : res (gmap string Any))
  : res (gmap string Any) :=
  Res (out r2) (with_reauthenticated false (self_after r2)) (world_after r2)
      (first ++ EvSetReauthenticated true :: trace r2 ++ [EvSetReauthenticated false]).

(** ** Reading a trace *)

Definition is_token_call (ev : event) : bool :=
  match ev with EvGetAccessToken _ => true | _ => false end.
Definition is_file_read (ev : event) : bool :=
  match ev with EvOpenRead _ _ => true | _ => false end.
Definition is_parse (ev : event) : bool :=
  match ev with EvParse _ => true | _ => false end.
Definition is_flag_set (b : bool) (ev : event) : bool :=
  match ev with EvSetReauthenticated b' => eqb b b' | _ => false end.

Definition count (f : event → bool) (t : list event) : nat :=
  length (List.filter f t).

(** The calls of [_refresh_session] in a trace of [query].  Each call of
    [_refresh_session] starts with one call of [get_access_token], and
    [query] reaches [get_access_token] no other way
    ([refresh_session_one_token]). *)
Definition rebuilds (t : list event) : nat := count is_token_call t.

(** The execution attempts of a trace, in order: the arguments handed to
    [session.execute] and how the attempt ended. *)
Fixpoint executions (t : list event)
  : list (DocumentNode * gmap string Any * outcome (gmap string Any)) :=
  match t with
  | [] => []
  | EvExecute _ q variables o :: t => (q, variables, o) :: executions t
  | _ :: t => executions t
  end.

(** The log records of a trace. *)
Fixpoint logged (t : list event) : list (level * string) :=
  match t with
  | [] => []
  | EvLog lvl msg :: t => (lvl, msg) :: logged t
  | _ :: t => logged t
  end.

(** Where the first event that satisfies [f] stands. *)
Fixpoint position (f : event → bool) (t : list event) : option nat :=
  match t with
  | [] => None
  | ev :: t => if f ev then Some O else S <$> position f t
  end.

(** The first event of [f] comes before the first event of [g]. *)
Definition precedes (f g : event → bool) (t : list event) : Prop :=
  ∃ i j, position f t = Some i ∧ position g t = Some j ∧ (i < j)%nat.

(** The errors on which [query] rebuilds the session: a protocol error, or
    a server error whose code is 302. *)
Definition stale_auth (e : exn) : bool :=
  match e with
  | TransportProtocolError _ => true
  | TransportServerError _ code => bool_decide (code = Some 302)
  | _ => false
  end.

(** The failures that [query] hands to its caller at once: a query error, a
    query-transport error, a closed transport, a server error of a code other
    than 302, a transport already connected, a read or connect timeout, and
    any exception of no class that [query] names. *)
Definition surfaced_directly (e : exn) : bool :=
  match e with
  | GraphQLError _ _ | TransportQueryError _ _ | TransportClosed _
  | TransportAlreadyConnected _ | ReadTimeout _ | ConnectTimeout _
  | OtherException _ _ => true
  | TransportServerError _ code => negb (bool_decide (code = Some 302))
  | TransportProtocolError _ => false
  end.

(** The trace of a call that made one execution attempt, then a second one
    with the same arguments, and no more. *)
Definition retried_once (q : DocumentNode) (variables : gmap string Any)
    (t : list event) : Prop :=
  ∃ o1 o2, executions t = [(q, variables, o1); (q, variables, o2)].

(** ** The paths through the methods

    [refresh_path self w r]: the call [_refresh_session()] on [self] in the
    world [w] ends as [r].  One constructor per place where the method can
    stop. *)
Definition bearer (token : string) : gmap string string :=
  {[ "authorization" := "Bearer " +:+ token ]}.
Definition token_failure_record (e : exn) : event :=
  EvLog CRITICAL ("CRITICAL - Error getting access token: " +:+ newline +:+ exn_str e).

Inductive refresh_path (self : GraphqlClient) (w : World) : res unit → Prop :=
| refresh_token_raised e w1 :
    get_access_token w = (Raise e, w1) →
    refresh_path self w
      (Res (Raise e) self w1 [EvGetAccessToken (Raise e); token_failure_record e])
| refresh_no_document token w1 :
    get_access_token w = (Return token, w1) →
    document self = None →
    refresh_path self w
      (Res (Raise (AttributeError "document")) self w1 [EvGetAccessToken (Return token)])
| refresh_schema_raised token w1 d e :
    get_access_token w = (Return token, w1) →
    document self = Some d →
    build_ast_schema d = Raise e →
    refresh_path self w
      (Res (Raise e) self w1 [EvGetAccessToken (Return token); EvBuildAstSchema d])
| refresh_connect_raised token w1 d sch e w2 :
    let c := {| transport := {| url := ROBOT_API_URL; headers := bearer token |};
                client_schema := sch |} in
    get_access_token w = (Return token, w1) →
    document self = Some d →
    build_ast_schema d = Return sch →
    connect_sync c w1 = (Raise e, w2) →
    refresh_path self w
      (Res (Raise e) (with_client c self) w2
           [EvGetAccessToken (Return token); EvBuildAstSchema d;
            EvConnectSync c (Raise e)])
| refresh_done token w1 d sch s w2 :
    let c := {| transport := {| url := ROBOT_API_URL; headers := bearer token |};
                client_schema := sch |} in
    get_access_token w = (Return token, w1) →
    document self = Some d →
    build_ast_schema d = Return sch →
    connect_sync c w1 = (Return s, w2) →
    refresh_path self w
      (Res (Return ()) (with_session s (with_client c self)) w2
           [EvGetAccessToken (Return token); EvBuildAstSchema d;
            EvConnectSync c (Return s)]).

(** [query_path n q variables self w o]: the call
    [query(q, variables)] with [S n] stack frames ends as [o]. *)
Inductive query_path (n : nat) (q : DocumentNode) (variables : gmap string Any)
    (self : GraphqlClient) (w : World) : option (res (gmap string Any)) → Prop :=
| path_no_session msg :
    session self = None →
    query_path n q variables self w
      (Some (Res (Raise (AttributeError "session")) (with_reauthenticated false self) w
                 [EvLog ERROR msg; EvSetReauthenticated false]))
| path_returned s response w1 :
    session self = Some s →
    execute s q variables w = (Return response, w1) →
    query_path n q variables self w
      (Some (Res (Return response) (with_reauthenticated false self) w1
                 [EvExecute s q variables (Return response);
                  EvSetReauthenticated false]))
| path_raised s e w1 msg :
    session self = Some s →
    execute s q variables w = (Raise e, w1) →
    stale_auth e = false ∨ _reauthenticated self = true →
    query_path n q variables self w
      (Some (Res (Raise e) (with_reauthenticated false self) w1
                 [EvExecute s q variables (Raise e); EvLog ERROR msg;
                  EvSetReauthenticated false]))
| path_rebuild_raised s e w1 rr e' :
    session self = Some s →
    execute s q variables w = (Raise e, w1) →
    stale_auth e = true →
    _reauthenticated self = false →
    _refresh_session self w1 = Some rr →
    out rr = Raise e' →
    query_path n q variables self w
      (Some (Res (Raise e') (with_reauthenticated false (self_after rr)) (world_after rr)
                 (EvExecute s q variables (Raise e) :: trace rr
                    ++ [EvSetReauthenticated false])))
| path_retried s e w1 rr :
    session self = Some s →
    execute s q variables w = (Raise e, w1) →
    stale_auth e = true →
    _reauthenticated self = false →
    _refresh_session self w1 = Some rr →
    out rr = Return () →
    query_path n q variables self w
      (retried (EvExecute s q variables (Raise e) :: trace rr)
         <$> query n q variables (with_reauthenticated true (self_after rr))
               (world_after rr)).

(** ** The life of one client

    [history self t]: the constructor returned an object, the caller made
    some calls of [query] on it, each in whatever state the world was by
    then, and [t] is everything the object did so far. *)
Inductive history : GraphqlClient → list event → Prop :=
| history_init w r :
    __init__ w = Some r → out r = Return () →
    history (self_after r) (trace r)
| history_query self t fuel q variables w r :
    history self t → query fuel q variables self w = Some r →
    history (self_after r) (t ++ trace r).

(** ** More readings of an object and its trace *)

(** The client that a session builder makes from a token and a schema. *)
Definition authorized_client (token : string) (sch : GraphQLSchema) : Client :=
  {| transport := {| url := ROBOT_API_URL; headers := bearer token |};
     client_schema := sch |}.

(** The text of the record that [query] logs, at error severity, for a
    failure it hands to its caller at once: one text per [except] clause. *)
Definition failure_text (e : exn) : string :=
  match e with
  | GraphQLError message _ =>
    "Something went wrong while sending the GraphQL query: " +:+ message
  | TransportQueryError _ errors =>
    "The Energy Robotics server returned an error: " +:+ format_errors errors
  | TransportClosed _ => "The connection to the GraphQL endpoint is closed"
  | TransportServerError _ _ => "Error in Energy Robotics server: " +:+ exn_str e
  | TransportAlreadyConnected _ =>
    "The transport is already connected: " +:+ exn_str e
  | ReadTimeout _ => "Request to GraphQL API timed out: " +:+ exn_str e
  | ConnectTimeout _ => "Connection to GraphQL API timed out: " +:+ exn_str e
  | OtherException _ _ => "Unknown error in GraphQL client: " +:+ exn_str e
  | TransportProtocolError _ =>
    "Transport protocol error - Error in configuration of GraphQL client even after reauthentication"
  end.

(** The one log record of a call whose retry failed again for stale
    authentication. *)
Definition retry_exhausted_record (e : exn) : level * string :=
  match e with
  | TransportProtocolError _ =>
    (ERROR, "Transport protocol error - Error in configuration of GraphQL client even after reauthentication")
  | _ =>
    (ERROR, "Transport server error - Error in Energy Robotics server even after reauthentication")
  end.

(** The token that the last successful call of [get_access_token] in a trace
    returned. *)
Fixpoint last_token (t : list event) : option string :=
  match t with
  | [] => None
  | EvGetAccessToken (Return token) :: t =>
    match last_token t with Some later => Some later | None => Some token end
  | _ :: t => last_token t
  end.

End graphql_client.

Arguments Res {_ _ _ _ A} _ _ _ _.
Arguments out {_ _ _ _ A} _.
Arguments self_after {_ _ _ _ A} _.
Arguments world_after {_ _ _ _ A} _.
Arguments trace {_ _ _ _ A} _.

(** ** A scripted world

    Concrete collaborators to run the methods on: the token service and the
    API server answer from scripts, one entry per call. *)
Module Scenario.

Record world : Type := {
  tokens : list (outcome string);
  schema_file : outcome string;
  replies : list (outcome (gmap string Any));
}.

Definition token_error : exn :=
  OtherException "ConnectionError" "token service unreachable".

Definition scripted_token (w : world) : outcome string * world :=
  match tokens w with
  | [] => (Raise token_error, w)
  | o :: rest =>
    (o, {| tokens := rest; schema_file := schema_file w; replies := replies w |})
  end.

Definition scripted_open (path : string) (w : world) : outcome string * world :=
  (if bool_decide (path = "schema.graphql") then schema_file w
   else Raise (OtherException "FileNotFoundError" path), w).

Definition scripted_execute (s : @Client string) (q : string)
    (variables : gmap string Any) (w : world) : outcome (gmap string Any) * world :=
  match replies w with
  | [] => (Raise (TransportClosed "no reply"), w)
  | o :: rest =>
    (o, {| tokens := tokens w; schema_file := schema_file w; replies := rest |})
  end.

(** Documents and schemas are their source text; a session is the client it
    was opened from. *)
#[export] Instance scripted : @Collaborators string string (@Client string) world := {|
  ROBOT_API_URL := "https://api.example/graphql";
  PATH_TO_GRAPHQL_SCHEMA := "schema.graphql";
  get_access_token := scripted_token;
  open_read := scripted_open;
  parse := Return;
  build_ast_schema := Return;
  connect_sync := λ c w, (Return c, w);
  execute := scripted_execute;
  format_errors := λ _, "[...]";
|}.

Definition mission_query : string := "query { missionExecutions { id } }".
Definition no_variables : gmap string Any := ∅.
Definition answer : gmap string Any := {[ "id" := PyStr "m-1" ]}.

(** The client and the object that a constructor call with the token [tok]
    leaves. *)
Definition client_of (tok : string) : @Client string :=
  {| transport := {| url := "https://api.example/graphql";
                     headers := {[ "authorization" := "Bearer " +:+ tok ]} |};
     client_schema := "type Query" |}.
Definition object_of (tok : string) : @GraphqlClient string string (@Client string) :=
  {| _reauthenticated := false; document := Some "type Query";
     client := Some (client_of tok); schema := Some {| _schema := "type Query" |};
     session := Some (client_of tok) |}.

Definition script (toks : list (outcome string))
    (answers : list (outcome (gmap string Any))) : world :=
  {| tokens := toks; schema_file := Return "type Query"; replies := answers |}.

(** The failures the scripts use. *)
Definition expired : exn := TransportProtocolError "expired".
Definition redirect : exn := TransportServerError "redirect" (Some 302).
Definition unavailable : exn := TransportServerError "unavailable" (Some 503).
Definition timed_out : exn := ReadTimeout "timed out".

(** The token has expired; the token service hands out [t1], and the server
    then answers. *)
Definition expired_then_answer : world :=
  script [Return "t1"] [Raise expired; Return answer].
(** The server keeps redirecting, new token or not. *)
Definition expired_then_redirect : world :=
  script [Return "t1"] [Raise expired; Raise redirect].
(** The new token is accepted and the request then times out. *)
Definition redirect_then_timeout : world :=
  script [Return "t1"] [Raise redirect; Raise timed_out].
(** The token has expired and the token service is down. *)
Definition token_service_down : world :=
  script [] [Raise expired; Return answer].

(** The token service works and the schema file is not there. *)
Definition file_missing : exn := OtherException "FileNotFoundError" "schema.graphql".
Definition schema_missing : world :=
  {| tokens := [Return "t0"]; schema_file := Raise file_missing; replies := [] |}.

(** What the constructor does in a world whose token service hands out [t0]. *)
Definition init_trace : list (@event string string (@Client string)) :=
  [EvSetReauthenticated false; EvGetAccessToken (Return "t0");
   EvOpenRead "schema.graphql" (Return "type Query"); EvParse "type Query";
   EvBuildAstSchema "type Query";
   EvConnectSync (client_of "t0") (Return (client_of "t0"))].
(** What [query] does in [expired_then_answer], called on [object_of "t0"]. *)
Definition retry_trace : list (@event string string (@Client string)) :=
  [EvExecute (client_of "t0") mission_query no_variables (Raise expired);
   EvGetAccessToken (Return "t1"); EvBuildAstSchema "type Query";
   EvConnectSync (client_of "t1") (Return (client_of "t1"));
   EvSetReauthenticated true;
   EvExecute (client_of "t1") mission_query no_variables (Return answer);
   EvSetReauthenticated false; EvSetReauthenticated false].
(** The object that call leaves: rebuilt with [t1], schema wrapper untouched. *)
Definition object_rebuilt : @GraphqlClient string string (@Client string) :=
  {| _reauthenticated := false; document := Some "type Query";
     client := Some (client_of "t1"); schema := Some {| _schema := "type Query" |};
     session := Some (client_of "t1") |}.

End Scenario.

(** ** A scripted world whose connections can fail

    The world of [Scenario], and a script for [connect_sync]: [Some e] makes
    the next call raise [e], [None] (or an empty script) lets it return. *)
Module Outage.

Record world : Type := {
  inner : Scenario.world;
  connections : list (option exn);
}.

Definition lift {A} (f : Scenario.world → outcome A * Scenario.world)
    (w : world) : outcome A * world :=
  let '(o, i) := f (inner w) in (o, {| inner := i; connections := connections w |}).

Definition scripted_connect (c : @Client string) (w : world)
  : outcome (@Client string) * world :=
  match connections w with
  | [] => (Return c, w)
  | None :: rest => (Return c, {| inner := inner w; connections := rest |})
  | Some e :: rest => (Raise e, {| inner := inner w; connections := rest |})
  end.

(** An empty document has no definition: [graphql.parse] raises a syntax
    error, a [GraphQLError]. *)
Definition scripted_parse (source : string) : outcome string :=
  if bool_decide (source = "") then
    Raise (GraphQLError "Syntax Error: Unexpected <EOF>." ["GraphQL request:1:1"])
  else Return source.

#[export] Instance with_outages
  : @Collaborators string string (@Client string) world := {|
  ROBOT_API_URL := "https://api.example/graphql";
  PATH_TO_GRAPHQL_SCHEMA := "schema.graphql";
  get_access_token := lift Scenario.scripted_token;
  open_read := λ path, lift (Scenario.scripted_open path);
  parse := scripted_parse;
  build_ast_schema := Return;
  connect_sync := scripted_connect;
  execute := λ s q variables, lift (Scenario.scripted_execute s q variables);
  format_errors := λ _, "[...]";
|}.

Definition refused : exn := TransportAlreadyConnected "Transport is already connected".

(** The token has expired, the token service hands out [t1], and the
    connection with the new token cannot be opened. *)
Definition expired_then_refused : world :=
  {| inner := Scenario.script [Return "t1"] [Raise Scenario.expired; Return Scenario.answer];
     connections := [Some refused] |}.

(** The schema file is there and empty. *)
Definition schema_empty : world :=
  {| inner := {| Scenario.tokens := [Return "t0"]; Scenario.schema_file := Return "";
                 Scenario.replies := [] |};
     connections := [] |}.
(** The schema file is not there. *)
Definition schema_missing : world :=
  {| inner := Scenario.schema_missing; connections := [] |}.

End Outage.

(** * Properties *)

Section properties.
Context {DocumentNode GraphQLSchema SyncClientSession World : Type}.
Context `{!@Collaborators DocumentNode GraphQLSchema SyncClientSession World}.
Implicit Types (self : @GraphqlClient DocumentNode GraphQLSchema SyncClientSession).
Implicit Types (w : World) (q : DocumentNode) (variables : gmap string Any).
Implicit Types (t : list (@event DocumentNode GraphQLSchema SyncClientSession)).
Implicit Types (f : @event DocumentNode GraphQLSchema SyncClientSession → bool).

(** Unfolds the monad down to functions of [self] and the world. *)
Ltac run :=
  unfold set_reauthenticated, logger_error, logger_critical in *;
  unfold mbind, mret, M_bind, M_ret in *;
  unfold bind, ret, raise, try_except, try_finally, call, pure_call, emit, get,
    getattr, modify, after in *;
  cbn in *.

(** *** Traces *)

Lemma count_app f t1 t2 : count f (t1 ++ t2) = (count f t1 + count f t2)%nat.
Proof. unfold count. by rewrite List.filter_app, length_app. Qed.

Lemma count_cons f ev t :
  count f (ev :: t) = ((if f ev then 1 else 0) + count f t)%nat.
Proof. unfold count. cbn. by destruct (f ev). Qed.

Lemma count_nil f : count f [] = 0%nat.
Proof. done. Qed.

Ltac split_count :=
  unfold rebuilds in *;
  repeat (rewrite count_app || rewrite count_cons || rewrite count_nil).

Lemma last_app_cons_snoc t1 ev t2 x : last (t1 ++ ev :: t2 ++ [x]) = Some x.
Proof. change (last (t1 ++ (ev :: t2) ++ [x]) = Some x). by rewrite app_assoc, last_snoc. Qed.

Lemma executions_app t1 t2 : executions (t1 ++ t2) = executions t1 ++ executions t2.
Proof.
  induction t1 as [|ev t1 IH]; [done|].
  destruct ev; cbn; by rewrite ?IH.
Qed.

Lemma logged_app t1 t2 : logged (t1 ++ t2) = logged t1 ++ logged t2.
Proof.
  induction t1 as [|ev t1 IH]; [done|].
  destruct ev; cbn; by rewrite ?IH.
Qed.

Lemma position_app_None f t1 t2 :
  position f t1 = None →
  position f (t1 ++ t2) = (λ i, length t1 + i)%nat <$> position f t2.
Proof.
  induction t1 as [|ev t1 IH]; cbn.
  - intros _. by destruct (position f t2).
  - destruct (f ev); [done|].
    destruct (position f t1); [done|]. intros _.
    rewrite IH by done. by destruct (position f t2).
Qed.

Lemma position_app_Some f t1 t2 i :
  position f t1 = Some i → position f (t1 ++ t2) = Some i.
Proof.
  revert i. induction t1 as [|ev t1 IH]; cbn; [done|]. intros i.
  destruct (f ev); [done|].
  destruct (position f t1) as [j|]; [|done].
  by rewrite (IH j).
Qed.

(** *** The session builders *)

Lemma refresh_session_path self w :
  ∃ rr, _refresh_session self w = Some rr ∧ refresh_path self w rr.
Proof.
  unfold _refresh_session, _get_updated_auth_header. run.
  destruct (get_access_token w) as [[token|e] w1] eqn:Htoken; cbn.
  2: { eexists; split; [reflexivity|]. by apply refresh_token_raised. }
  destruct (document self) as [d|] eqn:Hdoc; cbn.
  2: { eexists; split; [reflexivity|]. by apply refresh_no_document. }
  destruct (build_ast_schema d) as [sch|e] eqn:Hschema; cbn.
  2: { eexists; split; [reflexivity|]. by eapply refresh_schema_raised. }
  destruct (connect_sync _ w1) as [[s|e] w2] eqn:Hconnect; cbn.
  - eexists; split; [reflexivity|]. by eapply refresh_done.
  - eexists; split; [reflexivity|]. by eapply refresh_connect_raised.
Qed.

Lemma refresh_path_frame self w rr :
  refresh_path self w rr →
  document (self_after rr) = document self ∧
  schema (self_after rr) = schema self ∧
  _reauthenticated (self_after rr) = _reauthenticated self.
Proof. by destruct 1. Qed.

Lemma refresh_path_trace self w rr :
  refresh_path self w rr →
  rebuilds (trace rr) = 1%nat ∧ executions (trace rr) = [] ∧
  count is_file_read (trace rr) = 0%nat ∧ count is_parse (trace rr) = 0%nat ∧
  position is_token_call (trace rr) = Some 0%nat ∧
  position (is_flag_set true) (trace rr) = None.
Proof. by destruct 1. Qed.

Lemma refresh_path_session self w rr :
  refresh_path self w rr → out rr = Return () → is_Some (session (self_after rr)).
Proof. destruct 1; cbn; intros; by simplify_eq. Qed.

(** *** One call of [query] *)

Lemma query_path_of n q variables self w :
  query_path n q variables self w (query (S n) q variables self w).
Proof.
  destruct (session self) as [s|] eqn:Hs.
  2: { cbn [query]. run. rewrite Hs. cbn. by apply path_no_session. }
  destruct (execute s q variables w) as [[response|e] w1] eqn:He.
  { cbn [query]. run. rewrite Hs. cbn. rewrite He. cbn. by eapply path_returned. }
  destruct (stale_auth e) eqn:Hstale.
  2: { cbn [query]. run. rewrite Hs. cbn. rewrite He. cbn.
       destruct e; cbn in Hstale; try discriminate;
         try (eapply path_raised; eauto; fail).
       rewrite Hstale. cbn. eapply path_raised; eauto. }
  destruct (_reauthenticated self) eqn:Hflag.
  { cbn [query]. run. rewrite Hs. cbn. rewrite He. cbn.
    destruct e; cbn in Hstale; try discriminate; rewrite ?Hstale, Hflag; cbn;
      eapply path_raised; eauto. }
  destruct (refresh_session_path self w1) as (rr & Hrr & _).
  destruct (out rr) as [[]|e'] eqn:Hout.
  - replace (query (S n) q variables self w) with
      (retried (EvExecute s q variables (Raise e) :: trace rr)
         <$> query n q variables (with_reauthenticated true (self_after rr))
               (world_after rr)); [by eapply path_retried|].
    cbn [query]. run. rewrite Hs. cbn. rewrite He. cbn.
    destruct e; cbn in Hstale; try discriminate; rewrite ?Hstale, Hflag; cbn;
      rewrite Hrr; cbn; rewrite Hout; cbn;
      (destruct (query n _ _ _ _) as [r2|]; cbn; [|reflexivity]);
      unfold retried; cbn; by rewrite <- app_assoc.
  - replace (query (S n) q variables self w) with
      (Some (Res (Raise e' : outcome (gmap string Any))
                 (with_reauthenticated false (self_after rr)) (world_after rr)
                 (EvExecute s q variables (Raise e) :: trace rr
                    ++ [EvSetReauthenticated false])));
      [by eapply path_rebuild_raised|].
    cbn [query]. run. rewrite Hs. cbn. rewrite He. cbn.
    destruct e; cbn in Hstale; try discriminate; rewrite ?Hstale, Hflag; cbn;
      rewrite Hrr; cbn; by rewrite Hout.
Qed.

(** A call entered with the flag set makes one attempt and no rebuild. *)
Lemma query_flag_set n q variables self w :
  _reauthenticated self = true →
  ∃ r, query (S n) q variables self w = Some r ∧
       self_after r = with_reauthenticated false self ∧
       rebuilds (trace r) = 0%nat ∧
       count is_file_read (trace r) = 0%nat ∧ count is_parse (trace r) = 0%nat ∧
       position (is_flag_set true) (trace r) = None ∧
       last (trace r) = Some (EvSetReauthenticated false) ∧
       (executions (trace r) = [] ∨ executions (trace r) = [(q, variables, out r)]) ∧
       (is_Some (session self) → executions (trace r) = [(q, variables, out r)]) ∧
       (∀ e, out r = Raise e → ∃ msg, logged (trace r) = [(ERROR, msg)]).
Proof.
  intros Hflag.
  destruct (query_path_of n q variables self w); try congruence;
    (eexists; split; [reflexivity|]; cbn; repeat split; eauto).
  all: try (intros [? ?]; congruence).
  intros; discriminate.
Qed.

Lemma query_total fuel q variables self w :
  (2 ≤ fuel)%nat → is_Some (query fuel q variables self w).
Proof.
  destruct fuel as [|[|n]]; [lia..|]. intros _.
  destruct (query_path_of (S n) q variables self w); try done.
  destruct (query_flag_set n q variables
              (with_reauthenticated true (self_after rr)) (world_after rr))
    as (r2 & -> & _); done.
Qed.

(** What every call brings back, whatever path it took. *)
Lemma query_summary fuel q variables self w r :
  query fuel q variables self w = Some r →
  _reauthenticated (self_after r) = false ∧
  last (trace r) = Some (EvSetReauthenticated false) ∧
  document (self_after r) = document self ∧
  schema (self_after r) = schema self ∧
  (rebuilds (trace r) ≤ 1)%nat ∧
  (length (executions (trace r)) ≤ 2)%nat ∧
  count is_file_read (trace r) = 0%nat ∧
  count is_parse (trace r) = 0%nat.
Proof.
  destruct fuel as [|n]; [done|].
  destruct (query_path_of n q variables self w) as
    [msg Hs|s response w1 Hs He|s e w1 msg Hs He Hwhy
    |s e w1 rr e' Hs He Hstale Hflag Hrr Hout|s e w1 rr Hs He Hstale Hflag Hrr Hout].
  1-3: intros [= <-]; cbn; repeat split; lia.
  - intros [= <-]; cbn [out self_after world_after trace].
    destruct (refresh_session_path self w1) as (rr' & Hrr' & Hpath).
    assert (rr' = rr) as -> by congruence.
    destruct (refresh_path_frame _ _ _ Hpath) as (Hd & Hsc & _).
    destruct (refresh_path_trace _ _ _ Hpath) as (Hb & Hx & Hf & Hp & _).
    rewrite app_comm_cons, last_snoc. split_count. rewrite Hb, Hf, Hp.
    rewrite executions_app. cbn [executions]. rewrite Hx. cbn.
    repeat split; (done || lia).
  - destruct n as [|n]; [done|].
    destruct (query_flag_set n q variables
                (with_reauthenticated true (self_after rr)) (world_after rr))
      as (r2 & -> & Hself & Hb2 & Hf2 & Hp2 & _ & _ & Hx2 & _); [done|].
    intros [= <-]; cbn [out self_after world_after trace retried].
    destruct (refresh_session_path self w1) as (rr' & Hrr' & Hpath).
    assert (rr' = rr) as -> by congruence.
    destruct (refresh_path_frame _ _ _ Hpath) as (Hd & Hsc & _).
    destruct (refresh_path_trace _ _ _ Hpath) as (Hb & Hx & Hf & Hp & _).
    rewrite Hself, last_app_cons_snoc. split_count.
    rewrite Hb, Hf, Hp, Hb2, Hf2, Hp2.
    rewrite !executions_app. cbn [executions]. rewrite executions_app, Hx.
    cbn. repeat split; try (done || lia).
    rewrite length_app. destruct Hx2 as [-> | ->]; cbn; lia.
Qed.

(** The retry, seen from the call that started it: the rebuilt object has a
    session, so the retry makes its one attempt, with the same arguments, and
    its outcome is the outcome of the whole call. *)
Lemma query_retried n q variables self w s e w1 rr :
  session self = Some s →
  execute s q variables w = (Raise e, w1) →
  stale_auth e = true →
  _reauthenticated self = false →
  _refresh_session self w1 = Some rr →
  out rr = Return () →
  ∃ r2,
    query (S n) q variables (with_reauthenticated true (self_after rr)) (world_after rr)
      = Some r2 ∧
    query (S (S n)) q variables self w
      = Some (retried (EvExecute s q variables (Raise e) :: trace rr) r2) ∧
    executions (trace r2) = [(q, variables, out r2)] ∧
    rebuilds (trace r2) = 0%nat ∧
    position (is_flag_set true) (trace r2) = None ∧
    (∀ e2, out r2 = Raise e2 → ∃ msg, logged (trace r2) = [(ERROR, msg)]).
Proof.
  intros Hs He Hstale Hflag Hrr Hout.
  destruct (query_flag_set n q variables
              (with_reauthenticated true (self_after rr)) (world_after rr))
    as (r2 & Hr2 & _ & Hb2 & _ & _ & Hpos & _ & _ & Hx2 & Hlog); [done|].
  exists r2. split; [done|].
  destruct (refresh_session_path self w1) as (rr' & Hrr' & Hpath).
  assert (rr' = rr) as -> by congruence.
  split; [|repeat split; try done;
            apply Hx2; cbn; by eapply refresh_path_session].
  destruct (query_path_of (S n) q variables self w) as
    [msg Hs'|s' response w1' Hs' He'|s' e0 w1' msg Hs' He' Hwhy
    |s' e0 w1' rr0 e' Hs' He' Hstale' Hflag' Hrr0 Hout'
    |s' e0 w1' rr0 Hs' He' Hstale' Hflag' Hrr0 Hout'].
  1-2: congruence.
  - assert (e0 = e) as -> by congruence. destruct Hwhy; congruence.
  - assert (w1' = w1) as -> by congruence. congruence.
  - assert (s' = s ∧ e0 = e ∧ w1' = w1) as (-> & -> & ->)
      by (repeat split; congruence).
    assert (rr0 = rr) as -> by congruence. by rewrite Hr2.
Qed.

(** C2: on every exit path of a call of [query] the flag [_reauthenticated] is
    [False] when control is back with the caller: the call ends (two stack
    frames are enough), whether it returns or raises the object it leaves has
    the flag off, and the assignment of the [finally] clause is the last
    thing the call does. *)
Theorem flag_false_on_every_exit fuel q variables self w :
  (2 ≤ fuel)%nat →
  ∃ r, query fuel q variables self w = Some r ∧
       _reauthenticated (self_after r) = false ∧
       last (trace r) = Some (EvSetReauthenticated false).
Proof.
  intros Hfuel.
  destruct (query_total fuel q variables self w Hfuel) as [r Hr].
  exists r. split; [done|].
  by destruct (query_summary _ _ _ _ _ _ Hr) as (? & ? & _).
Qed.

(** C1: a call of [query] rebuilds the session at most once and makes at most
    two execution attempts; when the retried attempt fails again with a
    protocol error or a server error of code 302, that failure is what the
    caller gets. *)
Theorem at_most_one_reauthentication fuel q variables self w :
  (2 ≤ fuel)%nat →
  ∃ r, query fuel q variables self w = Some r ∧
       (rebuilds (trace r) ≤ 1)%nat ∧
       (length (executions (trace r)) ≤ 2)%nat ∧
       ∀ first e2,
         executions (trace r) = [first; (q, variables, Raise e2)] →
         stale_auth e2 = true →
         out r = Raise e2.
Proof.
  intros Hfuel.
  destruct (query_total fuel q variables self w Hfuel) as [r Hr].
  exists r. split; [done|].
  destruct (query_summary _ _ _ _ _ _ Hr) as (_ & _ & _ & _ & Hb & Hx & _).
  do 2 (split; [done|]).
  intros first e2 Hexec _.
  destruct fuel as [|[|n]]; [lia..|].
  destruct (query_path_of (S n) q variables self w) as
    [msg Hs|s response w1 Hs He|s e w1 msg Hs He Hwhy
    |s e w1 rr e' Hs He Hstale Hflag Hrr Hout|s e w1 rr Hs He Hstale Hflag Hrr Hout].
  1-3: by injection Hr as <-.
  - injection Hr as <-. cbn [trace executions] in Hexec.
    destruct (refresh_session_path self w1) as (rr' & Hrr' & Hpath).
    assert (rr' = rr) as -> by congruence.
    destruct (refresh_path_trace _ _ _ Hpath) as (_ & Hxr & _).
    by rewrite executions_app, Hxr in Hexec.
  - destruct (query_retried n q variables self w s e w1 rr)
      as (r2 & Hr2 & _ & Hx2 & _); try done.
    rewrite Hr2 in Hr. injection Hr as <-.
    cbn [trace out retried] in Hexec |- *.
    destruct (refresh_session_path self w1) as (rr' & Hrr' & Hpath).
    assert (rr' = rr) as -> by congruence.
    destruct (refresh_path_trace _ _ _ Hpath) as (_ & Hxr & _).
    rewrite executions_app in Hexec. cbn [executions] in Hexec.
    rewrite Hxr, executions_app, Hx2 in Hexec. cbn in Hexec. congruence.
Qed.

Lemma surfaced_directly_not_stale e : surfaced_directly e = negb (stale_auth e).
Proof. by destruct e. Qed.

Lemma query_returned n q variables self w s response w1 :
  session self = Some s →
  execute s q variables w = (Return response, w1) →
  query (S n) q variables self w =
    Some (Res (Return response) (with_reauthenticated false self) w1
              [EvExecute s q variables (Return response); EvSetReauthenticated false]).
Proof.
  intros Hs He.
  destruct (query_path_of n q variables self w); congruence.
Qed.

Lemma query_raised n q variables self w s e w1 :
  session self = Some s →
  execute s q variables w = (Raise e, w1) →
  stale_auth e = false ∨ _reauthenticated self = true →
  ∃ msg,
    query (S n) q variables self w =
      Some (Res (Raise e) (with_reauthenticated false self) w1
                [EvExecute s q variables (Raise e); EvLog ERROR msg;
                 EvSetReauthenticated false]).
Proof.
  intros Hs He Hwhy.
  destruct (query_path_of n q variables self w) as
    [msg Hs'|s' response w1' Hs' He'|s' e0 w1' msg Hs' He' Hwhy'
    |s' e0 w1' rr0 e' Hs' He' Hstale' Hflag' Hrr0 Hout'
    |s' e0 w1' rr0 Hs' He' Hstale' Hflag' Hrr0 Hout'].
  1-2: congruence.
  - assert (s' = s ∧ e0 = e ∧ w1' = w1) as (-> & -> & ->)
      by (repeat split; congruence).
    by exists msg.
  - assert (e0 = e) as -> by congruence. destruct Hwhy; congruence.
  - assert (e0 = e) as -> by congruence. destruct Hwhy; congruence.
Qed.

Lemma query_rebuild_raised n q variables self w s e w1 rr e' :
  session self = Some s →
  execute s q variables w = (Raise e, w1) →
  stale_auth e = true →
  _reauthenticated self = false →
  _refresh_session self w1 = Some rr →
  out rr = Raise e' →
  query (S n) q variables self w =
    Some (Res (Raise e') (with_reauthenticated false (self_after rr)) (world_after rr)
              (EvExecute s q variables (Raise e) :: trace rr
                 ++ [EvSetReauthenticated false])).
Proof.
  intros Hs He Hstale Hflag Hrr Hout.
  destruct (query_path_of n q variables self w) as
    [msg Hs'|s' response w1' Hs' He'|s' e0 w1' msg Hs' He' Hwhy'
    |s' e0 w1' rr0 e0' Hs' He' Hstale' Hflag' Hrr0 Hout'
    |s' e0 w1' rr0 Hs' He' Hstale' Hflag' Hrr0 Hout'].
  1-2: congruence.
  - assert (e0 = e) as -> by congruence. destruct Hwhy'; congruence.
  - assert (s' = s ∧ e0 = e ∧ w1' = w1) as (-> & -> & ->)
      by (repeat split; congruence).
    assert (rr0 = rr) as -> by congruence. congruence.
  - assert (w1' = w1) as -> by congruence. congruence.
Qed.

(** C10: [_refresh_session] leaves [self.document] and [self.schema] as
    they were (and the retry flag too), however it ends; what it assigns is
    [client] and [session]. *)
Theorem refresh_session_frame self w :
  ∃ rr, _refresh_session self w = Some rr ∧
        document (self_after rr) = document self ∧
        schema (self_after rr) = schema self ∧
        _reauthenticated (self_after rr) = _reauthenticated self.
Proof.
  destruct (refresh_session_path self w) as (rr & Hrr & Hpath).
  exists rr. split; [done|]. by apply (refresh_path_frame self w).
Qed.

(** C8: when [get_access_token] raises during a session build or rebuild,
    the builder logs one record at critical severity and raises the same
    exception; it has called [get_access_token] once and has done nothing
    else. *)
Theorem token_failure_is_fatal self w e w1 :
  get_access_token w = (Raise e, w1) →
  _initialize_session self w =
    Some (Res (Raise e) self w1 [EvGetAccessToken (Raise e); token_failure_record e]) ∧
  _refresh_session self w =
    Some (Res (Raise e) self w1 [EvGetAccessToken (Raise e); token_failure_record e]).
Proof.
  intros Htoken.
  unfold _initialize_session, _refresh_session, _get_updated_auth_header. run.
  by rewrite Htoken.
Qed.

(** C9: when the first attempt fails with a protocol error or a server error
    of code 302 and the rebuild raises, the caller gets the exception of the
    rebuild, the query was attempted once only, and the flag is [False]. *)
Theorem rebuild_failure_propagates fuel q variables self w s e w1 rr e' :
  (1 ≤ fuel)%nat →
  _reauthenticated self = false →
  session self = Some s →
  execute s q variables w = (Raise e, w1) →
  stale_auth e = true →
  _refresh_session self w1 = Some rr →
  out rr = Raise e' →
  ∃ r, query fuel q variables self w = Some r ∧
       out r = Raise e' ∧
       executions (trace r) = [(q, variables, Raise e)] ∧
       _reauthenticated (self_after r) = false.
Proof.
  intros Hfuel Hflag Hs He Hstale Hrr Hout.
  destruct fuel as [|n]; [lia|].
  eexists. split; [by eapply query_rebuild_raised|].
  destruct (refresh_session_path self w1) as (rr' & Hrr' & Hpath).
  assert (rr' = rr) as -> by congruence.
  destruct (refresh_path_trace _ _ _ Hpath) as (_ & Hx & _).
  cbn [out trace self_after executions]. by rewrite executions_app, Hx.
Qed.

Lemma query_surfaced n q variables self w s e w1 :
  session self = Some s →
  execute s q variables w = (Raise e, w1) →
  surfaced_directly e = true →
  query (S n) q variables self w =
    Some (Res (Raise e) (with_reauthenticated false self) w1
              [EvExecute s q variables (Raise e); EvLog ERROR (failure_text e);
               EvSetReauthenticated false]).
Proof.
  intros Hs He Hdirect. cbn [query]. run. rewrite Hs. cbn. rewrite He. cbn.
  destruct e; cbn in Hdirect; try discriminate; try done.
  apply negb_true_iff in Hdirect. by rewrite Hdirect.
Qed.

(** C4: a call whose execution attempt fails with a query error, a
    query-transport error, a server error of a code other than 302, a closed
    or already connected transport, a timeout or an exception of no named
    class makes no rebuild, logs one record at error severity, with the text
    that the [except] clause of that class writes ([failure_text]), and
    raises the same exception ([first part]); and whichever attempt of a call
    fails so, the first or the retried one, the call raises that exception
    and that record is in the log ([second part]). *)
Theorem other_failures_logged_and_reraised fuel q variables self w :
  (1 ≤ fuel)%nat →
  (∀ s e w1,
     session self = Some s →
     execute s q variables w = (Raise e, w1) →
     surfaced_directly e = true →
     query fuel q variables self w =
       Some (Res (Raise e) (with_reauthenticated false self) w1
                 [EvExecute s q variables (Raise e); EvLog ERROR (failure_text e);
                  EvSetReauthenticated false])) ∧
  (∀ r q' variables' e,
     query fuel q variables self w = Some r →
     (q', variables', Raise e) ∈ executions (trace r) →
     surfaced_directly e = true →
     out r = Raise e ∧ (ERROR, failure_text e) ∈ logged (trace r)).
Proof.
  intros Hfuel. destruct fuel as [|n]; [lia|]. split.
  - intros s e w1 Hs He Hdirect. by apply query_surfaced.
  - intros r q' variables' e Hr Hin Hdirect.
    pose proof Hdirect as Hstale'.
    rewrite surfaced_directly_not_stale in Hstale'.
    pose proof (query_path_of n q variables self w) as Hpath0.
    remember (query (S n) q variables self w) as o eqn:Ho.
    destruct Hpath0 as
      [msg Hs|s response w1 Hs He|s e0 w1 msg Hs He Hwhy
      |s e0 w1 rr e' Hs He Hstale Hflag Hrr Hout|s e0 w1 rr Hs He Hstale Hflag Hrr Hout].
    + injection Hr as <-. cbn in Hin. by apply elem_of_nil in Hin.
    + injection Hr as <-. cbn in Hin. apply list_elem_of_singleton in Hin. congruence.
    + injection Hr as <-. cbn in Hin. apply list_elem_of_singleton in Hin.
      assert (e0 = e) as -> by congruence.
      rewrite (query_surfaced n q variables self w s e w1 Hs He Hdirect) in Ho.
      injection Ho as ->.
      cbn. split; [done|]. by apply list_elem_of_singleton.
    + injection Hr as <-. cbn [trace executions] in Hin.
      destruct (refresh_session_path self w1) as (rr' & Hrr' & Hpath).
      assert (rr' = rr) as -> by congruence.
      destruct (refresh_path_trace _ _ _ Hpath) as (_ & Hx & _).
      rewrite executions_app, Hx in Hin. cbn in Hin.
      apply list_elem_of_singleton in Hin.
      assert (e0 = e) as -> by congruence. by rewrite Hstale in Hstale'.
    + destruct n as [|n]; [done|].
      destruct (query_retried n q variables self w s e0 w1 rr)
        as (r2 & Hr2 & _ & Hx2 & _); try done.
      rewrite Hr2 in Hr. injection Hr as <-.
      cbn [trace out retried] in Hin |- *.
      destruct (refresh_session_path self w1) as (rr' & Hrr' & Hpath).
      assert (rr' = rr) as -> by congruence.
      destruct (refresh_path_trace _ _ _ Hpath) as (_ & Hx & _).
      rewrite executions_app in Hin. cbn [executions] in Hin.
      rewrite Hx, executions_app, Hx2 in Hin. cbn in Hin.
      apply elem_of_cons in Hin as [Hin|Hin].
      { assert (e0 = e) as -> by congruence. by rewrite Hstale in Hstale'. }
      apply list_elem_of_singleton in Hin.
      assert (out r2 = Raise e) as Hout2 by congruence.
      split; [done|].
      destruct (refresh_path_session _ _ _ Hpath Hout) as [s2 Hs2].
      destruct (execute s2 q variables (world_after rr)) as [[response|e2] w2] eqn:He2.
      { rewrite (query_returned n q variables _ _ s2 response w2) in Hr2 by done.
        injection Hr2 as <-. discriminate Hout2. }
      destruct (query_raised n q variables
                  (with_reauthenticated true (self_after rr)) (world_after rr)
                  s2 e2 w2) as [msg Hmsg]; [done|done|by right|].
      assert (e2 = e) as -> by (rewrite Hmsg in Hr2; injection Hr2 as <-; cbn in Hout2; congruence).
      clear Hmsg.
      rewrite (query_surfaced n q variables _ _ s2 e w2) in Hr2 by done.
      injection Hr2 as <-. rewrite logged_app. apply elem_of_app. right.
      cbn. by apply list_elem_of_singleton.
Qed.

(** C6: a call whose attempt succeeds returns the mapping that
    [session.execute] returned ([first part]); when the first attempt fails
    with a protocol error and the retry after the rebuild succeeds, the
    caller gets the mapping of the second attempt ([second part]); and a
    mapping that a call returns is always the one its last execution attempt
    returned ([third part]). *)
Theorem response_returned_unchanged fuel q variables self w :
  (2 ≤ fuel)%nat →
  (∀ s response w1,
     session self = Some s →
     execute s q variables w = (Return response, w1) →
     query fuel q variables self w =
       Some (Res (Return response) (with_reauthenticated false self) w1
                 [EvExecute s q variables (Return response);
                  EvSetReauthenticated false])) ∧
  (∀ s msg w1 rr s2 response w2,
     _reauthenticated self = false →
     session self = Some s →
     execute s q variables w = (Raise (TransportProtocolError msg), w1) →
     _refresh_session self w1 = Some rr →
     out rr = Return () →
     session (self_after rr) = Some s2 →
     execute s2 q variables (world_after rr) = (Return response, w2) →
     ∃ r, query fuel q variables self w = Some r ∧
          out r = Return response ∧
          rebuilds (trace r) = 1%nat ∧
          executions (trace r) =
            [(q, variables, Raise (TransportProtocolError msg));
             (q, variables, Return response)]) ∧
  (∀ r response,
     query fuel q variables self w = Some r →
     out r = Return response →
     last (executions (trace r)) = Some (q, variables, Return response)).
Proof.
  intros Hfuel. destruct fuel as [|[|n]]; [lia..|]. split; [|split].
  - intros s response w1 Hs He. by apply query_returned.
  - intros s msg w1 rr s2 response w2 Hflag Hs He Hrr Hout Hs2 He2.
    destruct (query_retried n q variables self w s
                (TransportProtocolError msg) w1 rr)
      as (r2 & Hr2 & Hr & _); try done.
    rewrite (query_returned n q variables _ _ s2 response w2) in Hr2 by done.
    injection Hr2 as <-.
    eexists. split; [exact Hr|].
    destruct (refresh_session_path self w1) as (rr' & Hrr' & Hpath).
    assert (rr' = rr) as -> by congruence.
    destruct (refresh_path_trace _ _ _ Hpath) as (Hb & Hx & _).
    cbn [retried out trace]. split; [done|]. split.
    + split_count. by rewrite Hb.
    + rewrite executions_app. cbn [executions]. by rewrite Hx.
  - intros r response Hr Hout.
    destruct (query_path_of (S n) q variables self w) as
      [msg Hs|s response' w1 Hs He|s e0 w1 msg Hs He Hwhy
      |s e0 w1 rr e' Hs He Hstale Hflag Hrr Hout'|s e0 w1 rr Hs He Hstale Hflag Hrr Hout'].
    1,3,4: injection Hr as <-; by cbn in Hout.
    + injection Hr as <-. cbn in Hout |- *. congruence.
    + destruct (query_retried n q variables self w s e0 w1 rr)
        as (r2 & Hr2 & _ & Hx2 & _); try done.
      rewrite Hr2 in Hr. injection Hr as <-. cbn [retried out trace] in Hout |- *.
      rewrite executions_app. cbn [executions].
      rewrite executions_app, Hx2, Hout. cbn [executions].
      rewrite app_nil_r. apply last_snoc.
Qed.

(** C3, amended: a call entered with the flag off whose first attempt fails
    with a protocol error or a server error of code 302 calls
    [_refresh_session] once.  When the rebuild returns, the execution is
    retried once, with the same query and parameters, and the outcome of the
    retry is the outcome of the call.  When the rebuild raises, there is no
    retry and its exception is the outcome of the call.  A server error of
    any other code makes no rebuild and is raised again. *)
Theorem stale_auth_rebuilds_once fuel q variables self w s e w1 :
  (2 ≤ fuel)%nat →
  _reauthenticated self = false →
  session self = Some s →
  execute s q variables w = (Raise e, w1) →
  ∃ r, query fuel q variables self w = Some r ∧
    (stale_auth e = true →
       ∃ rr, _refresh_session self w1 = Some rr ∧
             rebuilds (trace r) = 1%nat ∧
             match out rr with
             | Return _ =>
                 ∃ o2, executions (trace r) =
                         [(q, variables, Raise e); (q, variables, o2)] ∧
                       out r = o2
             | Raise e' =>
                 executions (trace r) = [(q, variables, Raise e)] ∧
                 out r = Raise e'
             end) ∧
    (∀ msg code,
       e = TransportServerError msg code → code ≠ Some 302 →
       rebuilds (trace r) = 0%nat ∧ out r = Raise e).
Proof.
  intros Hfuel Hflag Hs He. destruct fuel as [|[|n]]; [lia..|].
  destruct (stale_auth e) eqn:Hstale.
  - destruct (refresh_session_path self w1) as (rr & Hrr & Hpath).
    destruct (refresh_path_trace _ _ _ Hpath) as (Hb & Hx & _).
    destruct (out rr) as [[]|e'] eqn:Hout.
    + destruct (query_retried n q variables self w s e w1 rr)
        as (r2 & _ & Hr & Hx2 & Hb2 & _); try done.
      eexists. split; [exact Hr|]. split.
      * intros _. exists rr. split; [done|]. rewrite Hout.
        cbn [retried out trace]. split.
        { split_count. rewrite Hb, Hb2. done. }
        exists (out r2). split; [|done].
        rewrite executions_app. cbn [executions].
        by rewrite Hx, executions_app, Hx2.
      * intros msg code -> Hcode. cbn in Hstale.
        by apply bool_decide_eq_true in Hstale.
    + eexists. split; [by eapply query_rebuild_raised|]. split.
      * intros _. exists rr. split; [done|]. rewrite Hout.
        cbn [out trace]. split.
        { split_count. rewrite Hb. done. }
        cbn [executions]. by rewrite executions_app, Hx.
      * intros msg code -> Hcode. cbn in Hstale.
        by apply bool_decide_eq_true in Hstale.
  - destruct (query_raised (S n) q variables self w s e w1) as [msg Hr]; auto.
    eexists. split; [exact Hr|]. split; [done|].
    intros msg' code _ _. done.
Qed.

(** C5, amended: on a first-attempt protocol error with the flag off,
    [query] first calls [_refresh_session]; when that returns it sets the
    flag, and then calls itself, and that call makes one attempt and no
    rebuild.  When [_refresh_session] raises the flag is never set. *)
Theorem recovery_steps_in_order fuel q variables self w s msg w1 :
  (2 ≤ fuel)%nat →
  _reauthenticated self = false →
  session self = Some s →
  execute s q variables w = (Raise (TransportProtocolError msg), w1) →
  ∃ r rr,
    query fuel q variables self w = Some r ∧
    _refresh_session self w1 = Some rr ∧
    match out rr with
    | Return _ =>
        ∃ r2,
          query (pred fuel) q variables
            (with_reauthenticated true (self_after rr)) (world_after rr) = Some r2 ∧
          trace r =
            EvExecute s q variables (Raise (TransportProtocolError msg)) :: trace rr
              ++ EvSetReauthenticated true :: trace r2
              ++ [EvSetReauthenticated false] ∧
          precedes is_token_call (is_flag_set true) (trace r) ∧
          executions (trace r2) = [(q, variables, out r2)] ∧
          rebuilds (trace r2) = 0%nat
    | Raise _ =>
        trace r =
          EvExecute s q variables (Raise (TransportProtocolError msg)) :: trace rr
            ++ [EvSetReauthenticated false] ∧
        position (is_flag_set true) (trace r) = None
    end.
Proof.
  intros Hfuel Hflag Hs He. destruct fuel as [|[|n]]; [lia..|].
  destruct (refresh_session_path self w1) as (rr & Hrr & Hpath).
  destruct (refresh_path_trace _ _ _ Hpath) as (_ & _ & _ & _ & Htok & Hset).
  destruct (out rr) as [[]|e'] eqn:Hout.
  - destruct (query_retried n q variables self w s
                (TransportProtocolError msg) w1 rr)
      as (r2 & Hr2 & Hr & Hx2 & Hb2 & Hset2 & _); try done.
    eexists _, rr. split; [exact Hr|]. split; [done|]. rewrite Hout.
    exists r2. cbn [pred retried trace]. repeat split; try done.
    exists 1%nat, (S (length (trace rr))).
    cbn [app position is_token_call is_flag_set].
    rewrite (position_app_Some _ _ _ _ Htok), (position_app_None _ _ _ Hset).
    cbn. split; [done|]. split; [by rewrite Nat.add_0_r|].
    destruct Hpath; cbn; lia.
  - eexists _, rr. split; [by eapply query_rebuild_raised|]. split; [done|].
    rewrite Hout. cbn [trace]. split; [done|].
    cbn [position is_flag_set]. by rewrite (position_app_None _ _ _ Hset).
Qed.

(** *** The constructor and the life of a client *)

(** A constructor call that returns has fetched a token, read and parsed the
    schema file, built the schema and connected, once each and in this order. *)
Lemma init_returned w r :
  __init__ w = Some r → out r = Return () →
  ∃ token w1 source w2 d sch s w3,
    let c := {| transport := {| url := ROBOT_API_URL; headers := bearer token |};
                client_schema := sch |} in
    get_access_token w = (Return token, w1) ∧
    open_read PATH_TO_GRAPHQL_SCHEMA w1 = (Return source, w2) ∧
    parse source = Return d ∧
    build_ast_schema d = Return sch ∧
    connect_sync c w2 = (Return s, w3) ∧
    r = Res (Return ())
            {| _reauthenticated := false; document := Some d; client := Some c;
               schema := Some {| _schema := sch |}; session := Some s |}
            w3
            [EvSetReauthenticated false; EvGetAccessToken (Return token);
             EvOpenRead PATH_TO_GRAPHQL_SCHEMA (Return source); EvParse source;
             EvBuildAstSchema d; EvConnectSync c (Return s)].
Proof.
  unfold __init__, _initialize_session, _get_updated_auth_header. run.
  destruct (get_access_token w) as [[token|e] w1] eqn:Htoken; cbn;
    [|intros [= <-]; done].
  destruct (open_read PATH_TO_GRAPHQL_SCHEMA w1) as [[source|e] w2] eqn:Hopen; cbn;
    [|intros [= <-]; done].
  destruct (parse source) as [d|e] eqn:Hparse; cbn; [|intros [= <-]; done].
  destruct (build_ast_schema d) as [sch|e] eqn:Hschema; cbn; [|intros [= <-]; done].
  destruct (connect_sync _ w2) as [[s|e] w3] eqn:Hconnect; cbn;
    [|intros [= <-]; done].
  intros [= <-] _. by exists token, w1, source, w2, d, sch, s, w3.
Qed.

(** Between two calls the flag is off, the object has a session, and the
    document is the one the constructor parsed from the one read of the
    schema file. *)
Lemma history_invariant self t :
  history self t →
  _reauthenticated self = false ∧
  count is_file_read t = 1%nat ∧
  count is_parse t = 1%nat ∧
  ∃ source d,
    EvOpenRead PATH_TO_GRAPHQL_SCHEMA (Return source) ∈ t ∧
    parse source = Return d ∧
    document self = Some d.
Proof.
  induction 1 as [w r Hinit Hout|self t fuel q variables w r _ IH Hr].
  - destruct (init_returned w r Hinit Hout)
      as (token & w1 & source & w2 & d & sch & s & w3 & _ & _ & Hparse & _ & _ & ->).
    cbn. repeat split; try done. exists source, d. set_solver.
  - destruct IH as (_ & Hreads & Hparses & source & d & Hin & Hparse & Hdoc).
    destruct (query_summary _ _ _ _ _ _ Hr) as (Hflag & _ & Hd & _ & _ & _ & Hf & Hp).
    rewrite !count_app, Hreads, Hparses, Hf, Hp, Hd.
    repeat split; try done. exists source, d. set_solver.
Qed.

(** C7, amended: over the whole life of one client object the schema file
    is read once and parsed once, by the constructor, and [self.document] is
    that parse (once for each client that a process constructs).  Every
    rebuild, on its side, reads and parses no file, starts with one call of
    [get_access_token], and when it returns the new client carries the token
    that this call returned, the schema built from [self.document], and the
    new session is the one opened from that client. *)
Theorem schema_loaded_once_token_fetched_per_build self t :
  history self t →
  count is_file_read t = 1%nat ∧
  count is_parse t = 1%nat ∧
  (∃ source d,
     EvOpenRead PATH_TO_GRAPHQL_SCHEMA (Return source) ∈ t ∧
     parse source = Return d ∧
     document self = Some d) ∧
  ∀ w, ∃ rr,
    _refresh_session self w = Some rr ∧
    count is_file_read (trace rr) = 0%nat ∧
    count is_parse (trace rr) = 0%nat ∧
    count is_token_call (trace rr) = 1%nat ∧
    head (trace rr) = Some (EvGetAccessToken (get_access_token w).1) ∧
    (out rr = Return () →
     ∃ token d sch s,
       let c := {| transport := {| url := ROBOT_API_URL; headers := bearer token |};
                   client_schema := sch |} in
       (get_access_token w).1 = Return token ∧
       document self = Some d ∧
       build_ast_schema d = Return sch ∧
       client (self_after rr) = Some c ∧
       session (self_after rr) = Some s ∧
       EvConnectSync c (Return s) ∈ trace rr).
Proof.
  intros Hhist.
  destruct (history_invariant self t Hhist) as (_ & Hreads & Hparses & Hloaded).
  do 3 (split; [done|]).
  intros w. destruct (refresh_session_path self w) as (rr & Hrr & Hpath).
  exists rr. split; [done|].
  destruct (refresh_path_trace _ _ _ Hpath) as (Hb & _ & Hf & Hp & _).
  do 3 (split; [done|]).
  destruct Hpath as [e w1 Htok|token w1 Htok Hdoc|token w1 d e Htok Hdoc Hsch
                    |token w1 d sch e w2 c Htok Hdoc Hsch Hcon
                    |token w1 d sch s w2 c Htok Hdoc Hsch Hcon];
    rewrite Htok; cbn; (split; [done|]); intros Hret; try discriminate Hret.
  exists token, d, sch, s. repeat split; try done.
  rewrite !elem_of_cons. auto.
Qed.

(** *** Further properties of the constructor *)

(** A constructor call returns exactly when the token service, the schema
    file, the parser, the schema builder and the connection all succeed, asked
    once each in this order; the object then holds the parsed document, a
    client for [ROBOT_API_URL] with the token in its header, the DSL wrapper
    of the client's schema, the session of the connection, and the flag off. *)
Theorem constructor_returns_iff w r :
  __init__ w = Some r ∧ out r = Return () ↔
  ∃ token w1 source w2 d sch s w3,
    get_access_token w = (Return token, w1) ∧
    open_read PATH_TO_GRAPHQL_SCHEMA w1 = (Return source, w2) ∧
    parse source = Return d ∧
    build_ast_schema d = Return sch ∧
    connect_sync (authorized_client token sch) w2 = (Return s, w3) ∧
    r = Res (Return ())
            {| _reauthenticated := false; document := Some d;
               client := Some (authorized_client token sch);
               schema := Some {| _schema := sch |}; session := Some s |}
            w3
            [EvSetReauthenticated false; EvGetAccessToken (Return token);
             EvOpenRead PATH_TO_GRAPHQL_SCHEMA (Return source); EvParse source;
             EvBuildAstSchema d;
             EvConnectSync (authorized_client token sch) (Return s)].
Proof.
  split.
  - intros [Hinit Hout]. exact (init_returned w r Hinit Hout).
  - intros (token & w1 & source & w2 & d & sch & s & w3 &
            Htoken & Hopen & Hparse & Hschema & Hconnect & ->).
    split; [|done].
    unfold __init__, _initialize_session, _get_updated_auth_header. run.
    rewrite Htoken. cbn. rewrite Hopen. cbn. rewrite Hparse. cbn.
    rewrite Hschema. cbn. unfold authorized_client, bearer in Hconnect.
    rewrite Hconnect. done.
Qed.

(** When the schema file cannot be read, or its text cannot be parsed, the
    constructor raises that exception as it is.  It has fetched a token by
    then; it writes no log record, builds no schema and opens no
    connection. *)
Theorem constructor_schema_load_failure w token w1 :
  get_access_token w = (Return token, w1) →
  (∀ e w2,
     open_read PATH_TO_GRAPHQL_SCHEMA w1 = (Raise e, w2) →
     __init__ w =
       Some (Res (Raise e) new_object w2
                 [EvSetReauthenticated false; EvGetAccessToken (Return token);
                  EvOpenRead PATH_TO_GRAPHQL_SCHEMA (Raise e)])) ∧
  (∀ source w2 e,
     open_read PATH_TO_GRAPHQL_SCHEMA w1 = (Return source, w2) →
     parse source = Raise e →
     __init__ w =
       Some (Res (Raise e) new_object w2
                 [EvSetReauthenticated false; EvGetAccessToken (Return token);
                  EvOpenRead PATH_TO_GRAPHQL_SCHEMA (Return source);
                  EvParse source])).
Proof.
  intros Htoken. split.
  - intros e w2 Hopen.
    unfold __init__, _initialize_session, _get_updated_auth_header. run.
    rewrite Htoken. cbn. by rewrite Hopen.
  - intros source w2 e Hopen Hparse.
    unfold __init__, _initialize_session, _get_updated_auth_header. run.
    rewrite Htoken. cbn. rewrite Hopen. cbn. by rewrite Hparse.
Qed.

(** *** Further properties of [query] *)

Lemma last_token_app t1 t2 :
  last_token (t1 ++ t2) =
  match last_token t2 with Some token => Some token | None => last_token t1 end.
Proof.
  induction t1 as [|ev t1 IH]; cbn; [by destruct (last_token t2)|].
  destruct ev as [[token|e]| | | | | | |]; cbn; rewrite ?IH; try done.
  by destruct (last_token t2), (last_token t1).
Qed.

Lemma refresh_path_log self w rr :
  refresh_path self w rr →
  (logged (trace rr) = [] ∧ last_token (trace rr) ≠ None ∧
   (∀ e, EvGetAccessToken (Raise e) ∉ trace rr)) ∨
  (∃ e, out rr = Raise e ∧ self_after rr = self ∧
        trace rr = [EvGetAccessToken (Raise e); token_failure_record e]).
Proof.
  destruct 1; [right; by eexists|left..]; cbn; (split; [done|]); (split; [done|]);
    intros e' Hin; repeat (apply elem_of_cons in Hin as [Hin|Hin]; [discriminate Hin|]);
    by apply elem_of_nil in Hin.
Qed.

(** The one attempt of a call entered with the flag set. *)
Lemma query_flag_set_exact n q variables self w s :
  _reauthenticated self = true →
  session self = Some s →
  ∃ r log,
    query (S n) q variables self w = Some r ∧
    out r = (execute s q variables w).1 ∧
    world_after r = (execute s q variables w).2 ∧
    self_after r = with_reauthenticated false self ∧
    trace r = EvExecute s q variables (out r) :: log ++ [EvSetReauthenticated false] ∧
    match out r with
    | Return _ => log = []
    | Raise e => ∃ msg, log = [EvLog ERROR msg]
    end.
Proof.
  intros Hflag Hs.
  destruct (execute s q variables w) as [[response|e] w1] eqn:He.
  - eexists _, []. split; [by eapply query_returned|]. by cbn.
  - destruct (query_raised n q variables self w s e w1) as [msg Hr]; auto.
    eexists _, [EvLog ERROR msg]. split; [exact Hr|]. cbn.
    do 4 (split; [done|]). by exists msg.
Qed.

(** A call writes at most one log record, and none when it returns.  A
    record at critical severity is the one of a failed token acquisition, and
    the exception of that failure is then what the call raises. *)
Theorem one_log_record_per_call fuel q variables self w r :
  query fuel q variables self w = Some r →
  (length (logged (trace r)) ≤ 1)%nat ∧
  (∀ response, out r = Return response → logged (trace r) = []) ∧
  (∀ msg, (CRITICAL, msg) ∈ logged (trace r) →
     ∃ e, EvGetAccessToken (Raise e) ∈ trace r ∧ out r = Raise e).
Proof.
  destruct fuel as [|n]; [done|].
  destruct (query_path_of n q variables self w) as
    [msg Hs|s response w1 Hs He|s e w1 msg Hs He Hwhy
    |s e w1 rr e' Hs He Hstale Hflag Hrr Hout|s e w1 rr Hs He Hstale Hflag Hrr Hout].
  - intros [= <-]; cbn. split; [lia|]. split; [done|].
    intros msg' Hin. apply list_elem_of_singleton in Hin. discriminate Hin.
  - intros [= <-]; cbn. split; [lia|]. split; [done|].
    intros msg' Hin. by apply elem_of_nil in Hin.
  - intros [= <-]; cbn. split; [lia|]. split; [done|].
    intros msg' Hin. apply list_elem_of_singleton in Hin. discriminate Hin.
  - intros [= <-]; cbn [out trace logged].
    destruct (refresh_session_path self w1) as (rr' & Hrr' & Hpath).
    assert (rr' = rr) as -> by congruence.
    rewrite logged_app. cbn [logged]. rewrite app_nil_r.
    destruct (refresh_path_log _ _ _ Hpath) as [(Hlog & _)|(e0 & Hout0 & _ & Htrace)].
    + rewrite Hlog. cbn. split; [lia|]. split; [done|].
      intros msg' Hin. by apply elem_of_nil in Hin.
    + rewrite Htrace. cbn. split; [lia|]. split; [done|].
      intros msg' _. exists e0. split; [|congruence].
      rewrite !elem_of_cons. auto.
  - destruct n as [|n]; [done|].
    destruct (refresh_session_path self w1) as (rr' & Hrr' & Hpath).
    assert (rr' = rr) as -> by congruence.
    destruct (refresh_path_log _ _ _ Hpath) as [(Hlog & _)|(e0 & Hout0 & _)];
      [|congruence].
    destruct (refresh_path_session _ _ _ Hpath Hout) as [s2 Hs2].
    destruct (query_flag_set_exact n q variables
                (with_reauthenticated true (self_after rr)) (world_after rr) s2)
      as (r2 & log & -> & _ & _ & _ & Htrace2 & Hlog2); [done..|].
    intros [= <-]; cbn [out trace retried fmap option_fmap option_map].
    rewrite logged_app. cbn [logged]. rewrite Hlog, logged_app, Htrace2.
    cbn [logged]. rewrite logged_app. cbn [logged app].
    destruct (out r2) as [response|e2].
    + subst log. cbn. split; [lia|]. split; [done|].
      intros msg' Hin. by apply elem_of_nil in Hin.
    + destruct Hlog2 as [msg ->]. cbn. split; [lia|]. split; [done|].
      intros msg' Hin. apply list_elem_of_singleton in Hin. discriminate Hin.
Qed.

Lemma refresh_session_connects self w token w1 d sch :
  get_access_token w = (Return token, w1) →
  document self = Some d →
  build_ast_schema d = Return sch →
  _refresh_session self w =
  Some (match connect_sync (authorized_client token sch) w1 with
        | (Return s, w2) =>
            Res (Return ())
                (with_session s (with_client (authorized_client token sch) self)) w2
                [EvGetAccessToken (Return token); EvBuildAstSchema d;
                 EvConnectSync (authorized_client token sch) (Return s)]
        | (Raise e, w2) =>
            Res (Raise e) (with_client (authorized_client token sch) self) w2
                [EvGetAccessToken (Return token); EvBuildAstSchema d;
                 EvConnectSync (authorized_client token sch) (Raise e)]
        end).
Proof.
  intros Htoken Hdoc Hschema.
  unfold _refresh_session, _get_updated_auth_header. run.
  rewrite Htoken. cbn. rewrite Hdoc. cbn. rewrite Hschema. cbn.
  unfold authorized_client, bearer.
  by destruct (connect_sync _ w1) as [[s|e] w2].
Qed.

(** When the first attempt fails for stale authentication and the rebuild
    gets its token but cannot connect, the call raises the exception of
    [connect_sync] and writes no log record at all; the object is left with
    the new client and the session of the old one. *)
Theorem failed_connect_keeps_old_session
    fuel q variables self w s e w1 token w2 d sch e' w3 :
  (1 ≤ fuel)%nat →
  _reauthenticated self = false →
  session self = Some s →
  execute s q variables w = (Raise e, w1) →
  stale_auth e = true →
  get_access_token w1 = (Return token, w2) →
  document self = Some d →
  build_ast_schema d = Return sch →
  connect_sync (authorized_client token sch) w2 = (Raise e', w3) →
  ∃ r, query fuel q variables self w = Some r ∧
       out r = Raise e' ∧
       client (self_after r) = Some (authorized_client token sch) ∧
       session (self_after r) = Some s ∧
       logged (trace r) = [] ∧
       executions (trace r) = [(q, variables, Raise e)].
Proof.
  intros Hfuel Hflag Hs He Hstale Htoken Hdoc Hschema Hconnect.
  destruct fuel as [|n]; [lia|].
  pose proof (refresh_session_connects self w1 token w2 d sch Htoken Hdoc Hschema)
    as Hrr.
  rewrite Hconnect in Hrr.
  eexists. split; [by eapply query_rebuild_raised|]. by cbn.
Qed.

(** The whole of a call that recovers: the first attempt fails for stale
    authentication, the rebuild fetches a token and connects, and the one
    retry runs on the session of that connection, with the same query and
    parameters.  Its outcome is the outcome of the call, and the new client
    and session are what the object keeps. *)
Theorem retry_runs_on_rebuilt_session
    fuel q variables self w s e w1 token w2 d sch s2 w3 :
  (2 ≤ fuel)%nat →
  _reauthenticated self = false →
  session self = Some s →
  execute s q variables w = (Raise e, w1) →
  stale_auth e = true →
  get_access_token w1 = (Return token, w2) →
  document self = Some d →
  build_ast_schema d = Return sch →
  connect_sync (authorized_client token sch) w2 = (Return s2, w3) →
  ∃ r log,
    query fuel q variables self w = Some r ∧
    out r = (execute s2 q variables w3).1 ∧
    world_after r = (execute s2 q variables w3).2 ∧
    client (self_after r) = Some (authorized_client token sch) ∧
    session (self_after r) = Some s2 ∧
    trace r =
      [EvExecute s q variables (Raise e); EvGetAccessToken (Return token);
       EvBuildAstSchema d; EvConnectSync (authorized_client token sch) (Return s2);
       EvSetReauthenticated true; EvExecute s2 q variables (out r)]
      ++ log ++ [EvSetReauthenticated false; EvSetReauthenticated false] ∧
    match out r with
    | Return _ => log = []
    | Raise _ => ∃ msg, log = [EvLog ERROR msg]
    end.
Proof.
  intros Hfuel Hflag Hs He Hstale Htoken Hdoc Hschema Hconnect.
  destruct fuel as [|[|n]]; [lia..|].
  pose proof (refresh_session_connects self w1 token w2 d sch Htoken Hdoc Hschema)
    as Hrr.
  rewrite Hconnect in Hrr.
  destruct (query_retried n q variables self w s e w1 _ Hs He Hstale Hflag Hrr eq_refl)
    as (r2 & Hr2 & Hr & _).
  cbn [self_after world_after] in Hr2.
  destruct (query_flag_set_exact n q variables
              (with_reauthenticated true
                 (with_session s2 (with_client (authorized_client token sch) self)))
              w3 s2)
    as (r2' & log & Hr2' & Hout2 & Hworld2 & Hself2 & Htrace2 & Hlog2); [done..|].
  assert (r2' = r2) as -> by congruence.
  exists (retried (EvExecute s q variables (Raise e)
                     :: [EvGetAccessToken (Return token); EvBuildAstSchema d;
                         EvConnectSync (authorized_client token sch) (Return s2)]) r2),
         log.
  split; [exact Hr|].
  cbn [retried out self_after world_after trace].
  rewrite Hself2, Htrace2. cbn [client session with_reauthenticated].
  do 4 (split; [done|]). split; [|done].
  cbn. by rewrite <- app_assoc.
Qed.

Lemma query_flag_set_stale n q variables self w s e w1 :
  _reauthenticated self = true →
  session self = Some s →
  execute s q variables w = (Raise e, w1) →
  stale_auth e = true →
  query (S n) q variables self w =
    Some (Res (Raise e) (with_reauthenticated false self) w1
              [EvExecute s q variables (Raise e);
               EvLog ERROR (retry_exhausted_record e).2;
               EvSetReauthenticated false]).
Proof.
  intros Hflag Hs He Hstale. cbn [query]. run. rewrite Hs. cbn. rewrite He. cbn.
  destruct e; cbn in Hstale; try discriminate; rewrite ?Hstale, Hflag; done.
Qed.

(** When the retried attempt fails again for stale authentication, the log
    of the call is one record, at error severity, that says the failure
    remained after reauthentication; the first failure has left no record. *)
Theorem failed_retry_is_reported
    fuel q variables self w s e w1 rr s2 e2 w3 :
  (2 ≤ fuel)%nat →
  _reauthenticated self = false →
  session self = Some s →
  execute s q variables w = (Raise e, w1) →
  stale_auth e = true →
  _refresh_session self w1 = Some rr →
  out rr = Return () →
  session (self_after rr) = Some s2 →
  execute s2 q variables (world_after rr) = (Raise e2, w3) →
  stale_auth e2 = true →
  ∃ r, query fuel q variables self w = Some r ∧
       out r = Raise e2 ∧
       logged (trace r) = [retry_exhausted_record e2].
Proof.
  intros Hfuel Hflag Hs He Hstale Hrr Hout Hs2 He2 Hstale2.
  destruct fuel as [|[|n]]; [lia..|].
  destruct (query_retried n q variables self w s e w1 rr) as (r2 & Hr2 & Hr & _);
    try done.
  rewrite (query_flag_set_stale n q variables _ _ s2 e2 w3) in Hr2 by done.
  injection Hr2 as <-.
  eexists. split; [exact Hr|]. cbn [retried out trace]. split; [done|].
  destruct (refresh_session_path self w1) as (rr' & Hrr' & Hpath).
  assert (rr' = rr) as -> by congruence.
  destruct (refresh_path_log _ _ _ Hpath) as [(Hlog & _)|(e0 & Hout0 & _)];
    [|congruence].
  rewrite logged_app. cbn [logged]. rewrite Hlog. cbn.
  by destruct e2.
Qed.

(** *** What a life of calls keeps *)

(** One call, on an object whose document builds into [sch]: the object keeps
    having a session, and either no token was obtained and the client is the
    same, or the client is the one made from the last token obtained. *)
Lemma query_step fuel q variables self w r d sch :
  document self = Some d →
  build_ast_schema d = Return sch →
  query fuel q variables self w = Some r →
  (is_Some (session self) → is_Some (session (self_after r))) ∧
  ((last_token (trace r) = None ∧ client (self_after r) = client self) ∨
   (∃ token, last_token (trace r) = Some token ∧
             client (self_after r) = Some (authorized_client token sch))).
Proof.
  intros Hdoc Hschema. destruct fuel as [|n]; [done|].
  destruct (query_path_of n q variables self w) as
    [msg Hs|s response w1 Hs He|s e w1 msg Hs He Hwhy
    |s e w1 rr e' Hs He Hstale Hflag Hrr Hout|s e w1 rr Hs He Hstale Hflag Hrr Hout].
  1-3: intros [= <-]; cbn; split; [done|by left].
  - intros [= <-]; cbn [self_after trace].
    destruct (get_access_token w1) as [[token|e0] w2] eqn:Htoken.
    + rewrite (refresh_session_connects self w1 token w2 d sch) in Hrr by done.
      destruct (connect_sync _ w2) as [[s2|e2] w3]; injection Hrr as <-; cbn.
      * split; [done|]. right. by exists token.
      * split; [by rewrite Hs|]. right. by exists token.
    + destruct (refresh_session_path self w1) as (rr' & Hrr' & Hpath).
      assert (rr' = rr) as -> by congruence.
      destruct Hpath; try congruence. cbn. split; [done|]. by left.
  - destruct n as [|n]; [done|].
    destruct (get_access_token w1) as [[token|e0] w2] eqn:Htoken.
    + rewrite (refresh_session_connects self w1 token w2 d sch) in Hrr by done.
      destruct (connect_sync _ w2) as [[s2|e2] w3]; injection Hrr as <-;
        [|discriminate Hout].
      destruct (query_flag_set_exact n q variables
                  (with_reauthenticated true
                     (with_session s2 (with_client (authorized_client token sch) self)))
                  w3 s2)
        as (r2 & log & Hr2 & _ & _ & Hself2 & Htrace2 & Hlog2); [done..|].
      cbn [self_after world_after trace]. rewrite Hr2.
      intros [= <-]; cbn [retried self_after trace]. rewrite Hself2, Htrace2.
      split; [done|]. right. exists token. split; [|done].
      destruct (out r2); [subst log|destruct Hlog2 as [msg ->]]; done.
    + destruct (refresh_session_path self w1) as (rr' & Hrr' & Hpath).
      assert (rr' = rr) as -> by congruence.
      destruct Hpath; cbn in Hout; congruence.
Qed.

(** Between two calls: the flag is off, the session exists, the document is
    the one of the constructor, the DSL wrapper holds the schema built from
    it, and the client is the one made from that schema and from the last
    token obtained. *)
Lemma history_client self t :
  history self t →
  ∃ d sch token,
    _reauthenticated self = false ∧
    document self = Some d ∧
    build_ast_schema d = Return sch ∧
    schema self = Some {| _schema := sch |} ∧
    client self = Some (authorized_client token sch) ∧
    last_token t = Some token ∧
    is_Some (session self).
Proof.
  induction 1 as [w r Hinit Hout|self t fuel q variables w r _ IH Hr].
  - destruct (init_returned w r Hinit Hout)
      as (token & w1 & source & w2 & d & sch & s & w3 & _ & _ & _ & Hschema & _ & ->).
    exists d, sch, token. cbn. by repeat split.
  - destruct IH as (d & sch & token & _ & Hdoc & Hschema & Hdsl & Hclient & Htoken & Hs).
    destruct (query_summary _ _ _ _ _ _ Hr) as (Hflag & _ & Hd & Hsc & _).
    destruct (query_step _ _ _ _ _ _ d sch Hdoc Hschema Hr)
      as (Hs' & [[Hnone Hsame]|(token' & Hlast & Hnew)]).
    + exists d, sch, token. rewrite last_token_app, Hnone, Hd, Hsc, Hsame.
      repeat split; auto.
    + exists d, sch, token'. rewrite last_token_app, Hlast, Hd, Hsc.
      repeat split; auto.
Qed.

(** A constructed client is complete: the flag is off between calls and the
    four attributes of [_initialize_session] are set, whatever happened in
    earlier calls.  So a call on it never stops on a missing attribute: it
    ends, and the first thing it does is the execution attempt on the current
    session. *)
Theorem constructed_client_is_complete self t :
  history self t →
  _reauthenticated self = false ∧
  is_Some (document self) ∧ is_Some (client self) ∧
  is_Some (schema self) ∧ is_Some (session self) ∧
  ∀ fuel q variables w,
    (2 ≤ fuel)%nat →
    ∃ r s,
      query fuel q variables self w = Some r ∧
      session self = Some s ∧
      head (trace r) = Some (EvExecute s q variables (execute s q variables w).1).
Proof.
  intros Hlife.
  destruct (history_client self t Hlife)
    as (d & sch & token & Hflag & Hdoc & _ & Hdsl & Hclient & _ & [s Hs]).
  rewrite Hdoc, Hdsl, Hclient, Hs. do 5 (split; [by eauto|]).
  intros fuel q variables w Hfuel.
  destruct (query_total fuel q variables self w Hfuel) as [r Hr].
  exists r, s. do 2 (split; [done|]).
  destruct fuel as [|n]; [lia|].
  destruct (query_path_of n q variables self w) as
    [msg Hs'|s' response w1 Hs' He|s' e w1 msg Hs' He Hwhy
    |s' e w1 rr e' Hs' He Hstale Hflag' Hrr Hout|s' e w1 rr Hs' He Hstale Hflag' Hrr Hout];
    try congruence;
    assert (s' = s) as -> by congruence; rewrite He.
  1-3: by injection Hr as <-.
  destruct (query n q variables _ _) as [r2|]; [|done].
  by injection Hr as <-.
Qed.

(** Over the life of a client the document, the DSL wrapper and the address
    never change: the client, rebuilt or not, is for [ROBOT_API_URL] and
    holds the schema built from the document that the constructor parsed,
    which is the schema the DSL wrapper holds. *)
Theorem client_stays_on_loaded_schema self t :
  history self t →
  ∃ d sch c,
    document self = Some d ∧
    build_ast_schema d = Return sch ∧
    schema self = Some {| _schema := sch |} ∧
    client self = Some c ∧
    client_schema c = sch ∧
    url (transport c) = ROBOT_API_URL.
Proof.
  intros Hlife.
  destruct (history_client self t Hlife)
    as (d & sch & token & _ & Hdoc & Hschema & Hdsl & Hclient & _).
  by exists d, sch, (authorized_client token sch).
Qed.

(** Over the life of a client, the authorization header of its client is
    the bearer header of the token that the last successful call of
    [get_access_token] returned, and has no other entry. *)
Theorem client_carries_last_token self t :
  history self t →
  ∃ c token,
    client self = Some c ∧
    last_token t = Some token ∧
    headers (transport c) !! "authorization" = Some ("Bearer " +:+ token) ∧
    ∀ name, name ≠ "authorization" → headers (transport c) !! name = None.
Proof.
  intros Hlife.
  destruct (history_client self t Hlife)
    as (d & sch & token & _ & _ & _ & _ & Hclient & Htoken & _).
  exists (authorized_client token sch), token. do 2 (split; [done|]).
  cbn. unfold bearer. split.
  - apply lookup_singleton_eq.
  - intros name Hname. by apply lookup_singleton_ne.
Qed.

End properties.

(** * The theorems on the scripted world *)

Import Scenario.

Example init_runs :
  __init__ (script [Return "t0"] []) =
  Some (Res (Return ()) (object_of "t0") (script [] []) init_trace).
Proof. vm_compute. reflexivity. Qed.

Example retry_runs :
  query 2 mission_query no_variables (object_of "t0") expired_then_answer =
  Some (Res (Return answer) object_rebuilt (script [] []) retry_trace).
Proof. vm_compute. reflexivity. Qed.

(** [flag_false_on_every_exit] on a call that is retried and fails again. *)
Lemma flag_false_on_every_exit_witness :
  ∃ r, query 2 mission_query no_variables (object_of "t0") expired_then_redirect = Some r ∧
       _reauthenticated (self_after r) = false ∧
       last (trace r) = Some (EvSetReauthenticated false).
Proof.
  apply (flag_false_on_every_exit 2 mission_query no_variables (object_of "t0")
           expired_then_redirect).
  lia.
Defined.

(** [at_most_one_reauthentication] where the server redirects again after the
    rebuild: one rebuild, two attempts, and the second failure is raised. *)
Lemma at_most_one_reauthentication_witness :
  ∃ r, query 2 mission_query no_variables (object_of "t0") expired_then_redirect = Some r ∧
       rebuilds (trace r) = 1%nat ∧
       length (executions (trace r)) = 2%nat ∧
       out r = Raise redirect.
Proof.
  destruct (at_most_one_reauthentication 2 mission_query no_variables
              (object_of "t0") expired_then_redirect) as (r & Hr & _ & _ & Hlast);
    [lia|].
  exists r. split; [exact Hr|].
  vm_compute in Hr. injection Hr as <-.
  split; [reflexivity|]. split; [reflexivity|].
  apply (Hlast (mission_query, no_variables, Raise expired) redirect); reflexivity.
Defined.

(** [token_failure_is_fatal] with the token service down. *)
Lemma token_failure_is_fatal_witness :
  _initialize_session (object_of "t0") token_service_down =
    Some (Res (Raise token_error) (object_of "t0") token_service_down
              [EvGetAccessToken (Raise token_error); token_failure_record token_error]) ∧
  _refresh_session (object_of "t0") token_service_down =
    Some (Res (Raise token_error) (object_of "t0") token_service_down
              [EvGetAccessToken (Raise token_error); token_failure_record token_error]).
Proof.
  apply (token_failure_is_fatal (object_of "t0") token_service_down token_error
           token_service_down).
  reflexivity.
Defined.

(** [rebuild_failure_propagates]: the token has expired and the token service
    is down; the caller gets the error of the token service. *)
Lemma rebuild_failure_propagates_witness :
  ∃ r, query 2 mission_query no_variables (object_of "t0") token_service_down = Some r ∧
       out r = Raise token_error ∧
       executions (trace r) = [(mission_query, no_variables, Raise expired)] ∧
       _reauthenticated (self_after r) = false.
Proof.
  apply (rebuild_failure_propagates 2 mission_query no_variables (object_of "t0")
           token_service_down (client_of "t0") expired (script [] [Return answer])
           (Res (Raise token_error) (object_of "t0") (script [] [Return answer])
                [EvGetAccessToken (Raise token_error);
                 token_failure_record token_error])
           token_error);
    [lia | reflexivity..].
Defined.

(** [other_failures_logged_and_reraised] on a read timeout, at the first
    attempt and at the retried one. *)
Lemma other_failures_logged_and_reraised_witness :
  query 2 mission_query no_variables (object_of "t0") (script [] [Raise timed_out]) =
    Some (Res (Raise timed_out) (object_of "t0") (script [] [])
              [EvExecute (client_of "t0") mission_query no_variables (Raise timed_out);
               EvLog ERROR "Request to GraphQL API timed out: timed out";
               EvSetReauthenticated false]) ∧
  (∃ r,
     query 2 mission_query no_variables (object_of "t0") redirect_then_timeout = Some r ∧
     out r = Raise timed_out ∧
     (ERROR, "Request to GraphQL API timed out: timed out") ∈ logged (trace r)).
Proof.
  split.
  - apply (proj1 (other_failures_logged_and_reraised 2 mission_query no_variables
                    (object_of "t0") (script [] [Raise timed_out]) ltac:(lia))
             (client_of "t0") timed_out (script [] [])); reflexivity.
  - assert (∃ r, query 2 mission_query no_variables (object_of "t0")
                   redirect_then_timeout = Some r) as [r Hr]
      by (vm_compute; eexists; reflexivity).
    pose proof Hr as Hr'. vm_compute in Hr'. injection Hr' as <-.
    destruct (proj2 (other_failures_logged_and_reraised 2 mission_query no_variables
                       (object_of "t0") redirect_then_timeout ltac:(lia))
                _ mission_query no_variables timed_out Hr) as (Hout & Hmsg).
    + vm_compute. apply list_elem_of_further, list_elem_of_here.
    + reflexivity.
    + eexists. split; [exact Hr|]. split; [exact Hout|exact Hmsg].
Defined.

(** [response_returned_unchanged] on a call answered at once and on a call
    answered after one rebuild. *)
Lemma response_returned_unchanged_witness :
  query 2 mission_query no_variables (object_of "t0") (script [] [Return answer]) =
    Some (Res (Return answer) (object_of "t0") (script [] [])
              [EvExecute (client_of "t0") mission_query no_variables (Return answer);
               EvSetReauthenticated false]) ∧
  (∃ r, query 2 mission_query no_variables (object_of "t0") expired_then_answer = Some r ∧
        out r = Return answer ∧
        rebuilds (trace r) = 1%nat ∧
        executions (trace r) =
          [(mission_query, no_variables, Raise expired);
           (mission_query, no_variables, Return answer)]) ∧
  last (executions retry_trace) = Some (mission_query, no_variables, Return answer).
Proof.
  split; [|split].
  - apply (proj1 (response_returned_unchanged 2 mission_query no_variables
                    (object_of "t0") (script [] [Return answer]) ltac:(lia))
             (client_of "t0") answer (script [] [])); reflexivity.
  - apply (proj1 (proj2 (response_returned_unchanged 2 mission_query no_variables
                           (object_of "t0") expired_then_answer ltac:(lia)))
             (client_of "t0") "expired" (script [Return "t1"] [Return answer])
             (Res (Return ()) (with_reauthenticated false object_rebuilt)
                  (script [] [Return answer])
                  [EvGetAccessToken (Return "t1"); EvBuildAstSchema "type Query";
                   EvConnectSync (client_of "t1") (Return (client_of "t1"))])
             (client_of "t1") answer (script [] []));
      reflexivity.
  - apply (proj2 (proj2 (response_returned_unchanged 2 mission_query no_variables
                           (object_of "t0") expired_then_answer ltac:(lia)))
             (Res (Return answer) object_rebuilt (script [] []) retry_trace) answer);
      [exact retry_runs | reflexivity].
Defined.

(** C3, as stated, fails: the token has expired and the token service is
    down.  The first attempt raises a protocol error, the rebuild raises, and
    the execution is not retried. *)
Lemma no_retry_when_rebuild_raises :
  _reauthenticated (object_of "t0") = false ∧
  execute (client_of "t0") mission_query no_variables token_service_down =
    (Raise expired, script [] [Return answer]) ∧
  stale_auth expired = true ∧
  ∃ r, query 2 mission_query no_variables (object_of "t0") token_service_down = Some r ∧
       executions (trace r) = [(mission_query, no_variables, Raise expired)] ∧
       out r = Raise token_error ∧
       ¬ retried_once mission_query no_variables (trace r).
Proof.
  do 3 (split; [reflexivity|]).
  eexists. split; [vm_compute; reflexivity|].
  do 2 (split; [reflexivity|]).
  intros (o1 & o2 & Hx). vm_compute in Hx. discriminate Hx.
Defined.

(** [stale_auth_rebuilds_once] on an expired token that is renewed, and on a
    server error of code 503. *)
Lemma stale_auth_rebuilds_once_witness :
  (∃ r, query 2 mission_query no_variables (object_of "t0") expired_then_answer = Some r ∧
        rebuilds (trace r) = 1%nat ∧
        executions (trace r) =
          [(mission_query, no_variables, Raise expired);
           (mission_query, no_variables, Return answer)] ∧
        out r = Return answer) ∧
  (∃ r, query 2 mission_query no_variables (object_of "t0")
          (script [Return "t1"] [Raise unavailable]) = Some r ∧
        rebuilds (trace r) = 0%nat ∧ out r = Raise unavailable).
Proof.
  split.
  - destruct (stale_auth_rebuilds_once 2 mission_query no_variables (object_of "t0")
                expired_then_answer (client_of "t0") expired
                (script [Return "t1"] [Return answer]))
      as (r & Hr & Hstale & _); [lia | reflexivity..|].
    exists r. split; [exact Hr|].
    destruct (Hstale eq_refl) as (rr & Hrr & Hb & Hx).
    vm_compute in Hrr. injection Hrr as <-. cbn [out] in Hx.
    destruct Hx as (o2 & Hx & Hout). split; [exact Hb|].
    rewrite retry_runs in Hr. injection Hr as <-.
    split; reflexivity.
  - destruct (stale_auth_rebuilds_once 2 mission_query no_variables (object_of "t0")
                (script [Return "t1"] [Raise unavailable]) (client_of "t0") unavailable
                (script [Return "t1"] []))
      as (r & Hr & _ & Hother); [lia | reflexivity..|].
    exists r. split; [exact Hr|].
    apply (Hother "unavailable" (Some 503)); [reflexivity|discriminate].
Defined.

(** C5, as stated, fails: in the call that recovers from an expired token
    the rebuild starts at event 1 of the trace and the flag is set at event
    4, after it. *)
Lemma flag_set_after_rebuild :
  _reauthenticated (object_of "t0") = false ∧
  execute (client_of "t0") mission_query no_variables expired_then_answer =
    (Raise (TransportProtocolError "expired"), script [Return "t1"] [Return answer]) ∧
  ∃ r, query 2 mission_query no_variables (object_of "t0") expired_then_answer = Some r ∧
       position is_token_call (trace r) = Some 1%nat ∧
       position (is_flag_set true) (trace r) = Some 4%nat ∧
       ¬ precedes (is_flag_set true) is_token_call (trace r).
Proof.
  do 2 (split; [reflexivity|]).
  eexists. split; [exact retry_runs|].
  do 2 (split; [reflexivity|]).
  intros (i & j & Hi & Hj & Hlt).
  vm_compute in Hi. vm_compute in Hj.
  injection Hi as <-. injection Hj as <-. lia.
Defined.

(** [recovery_steps_in_order] on an expired token that is renewed. *)
Lemma recovery_steps_in_order_witness :
  ∃ r rr r2,
    query 2 mission_query no_variables (object_of "t0") expired_then_answer = Some r ∧
    _refresh_session (object_of "t0") (script [Return "t1"] [Return answer]) = Some rr ∧
    query 1 mission_query no_variables
      (with_reauthenticated true (self_after rr)) (world_after rr) = Some r2 ∧
    trace r =
      EvExecute (client_of "t0") mission_query no_variables (Raise expired) :: trace rr
        ++ EvSetReauthenticated true :: trace r2 ++ [EvSetReauthenticated false] ∧
    precedes is_token_call (is_flag_set true) (trace r).
Proof.
  destruct (recovery_steps_in_order 2 mission_query no_variables (object_of "t0")
              expired_then_answer (client_of "t0") "expired"
              (script [Return "t1"] [Return answer]))
    as (r & rr & Hr & Hrr & Hsteps); [lia | reflexivity..|].
  pose proof Hrr as Hrr'. vm_compute in Hrr'. injection Hrr' as <-.
  cbn [out] in Hsteps. destruct Hsteps as (r2 & Hr2 & Htrace & Hprec & _).
  eexists r, _, r2.
  split; [exact Hr|]. split; [exact Hrr|]. split; [exact Hr2|].
  split; [exact Htrace | exact Hprec].
Defined.

(** [schema_loaded_once_token_fetched_per_build] on a client that was
    constructed with [t0] and rebuilt once with [t1]: a further rebuild reads no
    file and carries the token [t2] of its own call. *)
Lemma schema_loaded_once_token_fetched_per_build_witness :
  history object_rebuilt (init_trace ++ retry_trace) ∧
  count is_file_read (init_trace ++ retry_trace) = 1%nat ∧
  count is_parse (init_trace ++ retry_trace) = 1%nat ∧
  document object_rebuilt = Some "type Query" ∧
  ∃ rr, _refresh_session object_rebuilt (script [Return "t2"] []) = Some rr ∧
        count is_file_read (trace rr) = 0%nat ∧
        head (trace rr) = Some (EvGetAccessToken (Return "t2")) ∧
        client (self_after rr) = Some (client_of "t2").
Proof.
  assert (history object_rebuilt (init_trace ++ retry_trace)) as Hlife.
  { apply (history_query (object_of "t0") init_trace 2 mission_query no_variables
             expired_then_answer
             (Res (Return answer) object_rebuilt (script [] []) retry_trace));
      [|exact retry_runs].
    apply (history_init (script [Return "t0"] [])
             (Res (Return ()) (object_of "t0") (script [] []) init_trace));
      [exact init_runs | reflexivity]. }
  split; [exact Hlife|].
  destruct (schema_loaded_once_token_fetched_per_build object_rebuilt
              (init_trace ++ retry_trace) Hlife)
    as (Hreads & Hparses & _ & Hrebuild).
  do 2 (split; [assumption|]). split; [reflexivity|].
  destruct (Hrebuild (script [Return "t2"] []))
    as (rr & Hrr & Hf & _ & _ & Hhead & Hnew).
  exists rr. do 3 (split; [assumption|]).
  pose proof Hrr as Hrr'. vm_compute in Hrr'. injection Hrr' as <-.
  reflexivity.
Defined.

(** C7, as stated, fails: the schema is not loaded once per process.  A
    process that constructs two clients, one after the other, reads the schema
    file twice and parses it twice, once in each constructor call. *)
Lemma two_clients_load_schema_twice :
  ∃ r1 r2,
    __init__ (script [Return "t0"; Return "t1"] []) = Some r1 ∧
    out r1 = Return () ∧
    __init__ (world_after r1) = Some r2 ∧
    out r2 = Return () ∧
    count is_file_read (trace r1 ++ trace r2) = 2%nat ∧
    count is_parse (trace r1 ++ trace r2) = 2%nat.
Proof.
  eexists _, _.
  split; [vm_compute; reflexivity|]. split; [reflexivity|].
  split; [vm_compute; reflexivity|]. split; [reflexivity|].
  split; reflexivity.
Defined.

(** * The further theorems on the scripted worlds *)

(** The client of the scripted worlds, constructed with [t0], then rebuilt
    with [t1] in one call of [query]. *)
Example life_after_retry :
  history Scenario.object_rebuilt (Scenario.init_trace ++ Scenario.retry_trace).
Proof.
  apply (history_query (Scenario.object_of "t0") Scenario.init_trace 2
           Scenario.mission_query Scenario.no_variables Scenario.expired_then_answer
           (Res (Return Scenario.answer) Scenario.object_rebuilt
                (Scenario.script [] []) Scenario.retry_trace));
    [|exact retry_runs].
  apply (history_init (Scenario.script [Return "t0"] [])
           (Res (Return ()) (Scenario.object_of "t0") (Scenario.script [] [])
                Scenario.init_trace));
    [exact init_runs | reflexivity].
Qed.

(** [constructor_returns_iff], from right to left, where every collaborator
    answers. *)
Lemma constructor_returns_iff_witness :
  __init__ (Scenario.script [Return "t0"] []) =
    Some (Res (Return ()) (Scenario.object_of "t0") (Scenario.script [] [])
              Scenario.init_trace) ∧
  Return () = Return ().
Proof.
  apply (proj2 (constructor_returns_iff (Scenario.script [Return "t0"] [])
                  (Res (Return ()) (Scenario.object_of "t0") (Scenario.script [] [])
                       Scenario.init_trace))).
  exists "t0", (Scenario.script [] []), "type Query", (Scenario.script [] []),
    "type Query", "type Query", (Scenario.client_of "t0"), (Scenario.script [] []).
  repeat split; reflexivity.
Defined.

(** [constructor_schema_load_failure] with the schema file missing, and with
    the schema file empty. *)
Lemma constructor_schema_load_failure_witness :
  __init__ Scenario.schema_missing =
    Some (Res (Raise Scenario.file_missing) new_object
              {| Scenario.tokens := []; Scenario.schema_file := Raise Scenario.file_missing;
                 Scenario.replies := [] |}
              [EvSetReauthenticated false; EvGetAccessToken (Return "t0");
               EvOpenRead "schema.graphql" (Raise Scenario.file_missing)]) ∧
  ∃ w2,
    @__init__ _ _ _ _ Outage.with_outages Outage.schema_empty =
      Some (Res (Raise (GraphQLError "Syntax Error: Unexpected <EOF>."
                          ["GraphQL request:1:1"])) new_object w2
                [EvSetReauthenticated false; EvGetAccessToken (Return "t0");
                 EvOpenRead "schema.graphql" (Return ""); EvParse ""]).
Proof.
  split.
  - refine (proj1 (constructor_schema_load_failure Scenario.schema_missing "t0"
                     {| Scenario.tokens := [];
                        Scenario.schema_file := Raise Scenario.file_missing;
                        Scenario.replies := [] |} _) _ _ _);
      reflexivity.
  - eexists.
    refine (proj2 (@constructor_schema_load_failure _ _ _ _ Outage.with_outages
                     Outage.schema_empty "t0" _ _) _ _ _ _ _);
      reflexivity.
Defined.

(** [failed_connect_keeps_old_session]: the object ends with the client of
    [t1] and the session of [t0]. *)
Lemma failed_connect_keeps_old_session_witness :
  ∃ r, @query _ _ _ _ Outage.with_outages 2 Scenario.mission_query
         Scenario.no_variables (Scenario.object_of "t0")
         Outage.expired_then_refused = Some r ∧
       out r = Raise Outage.refused ∧
       client (self_after r) = Some (Scenario.client_of "t1") ∧
       session (self_after r) = Some (Scenario.client_of "t0") ∧
       logged (trace r) = [] ∧
       executions (trace r) =
         [(Scenario.mission_query, Scenario.no_variables, Raise Scenario.expired)].
Proof.
  eapply (@failed_connect_keeps_old_session _ _ _ _ Outage.with_outages
            2%nat Scenario.mission_query
            Scenario.no_variables (Scenario.object_of "t0") Outage.expired_then_refused
            (Scenario.client_of "t0") Scenario.expired _ "t1" _ "type Query" "type Query"
            Outage.refused);
    [lia | reflexivity..].
Defined.

(** [one_log_record_per_call] on the call that recovers from an expired
    token. *)
Lemma one_log_record_per_call_witness :
  (length (logged Scenario.retry_trace) ≤ 1)%nat ∧
  (∀ response, Return Scenario.answer = Return response →
               logged Scenario.retry_trace = []) ∧
  (∀ msg, (CRITICAL, msg) ∈ logged Scenario.retry_trace →
     ∃ e, EvGetAccessToken (Raise e) ∈ Scenario.retry_trace ∧
          Return Scenario.answer = Raise e).
Proof.
  exact (one_log_record_per_call 2 Scenario.mission_query Scenario.no_variables
           (Scenario.object_of "t0") Scenario.expired_then_answer
           (Res (Return Scenario.answer) Scenario.object_rebuilt
                (Scenario.script [] []) Scenario.retry_trace)
           retry_runs).
Defined.

(** [retry_runs_on_rebuilt_session] on the call that recovers from an expired
    token: the retry runs on the session of [t1]. *)
Lemma retry_runs_on_rebuilt_session_witness :
  ∃ r, query 2 Scenario.mission_query Scenario.no_variables (Scenario.object_of "t0")
         Scenario.expired_then_answer = Some r ∧
       out r = Return Scenario.answer ∧
       session (self_after r) = Some (Scenario.client_of "t1") ∧
       trace r = Scenario.retry_trace.
Proof.
  destruct (retry_runs_on_rebuilt_session 2 Scenario.mission_query Scenario.no_variables
              (Scenario.object_of "t0") Scenario.expired_then_answer
              (Scenario.client_of "t0") Scenario.expired
              (Scenario.script [Return "t1"] [Return Scenario.answer]) "t1"
              (Scenario.script [] [Return Scenario.answer]) "type Query" "type Query"
              (Scenario.client_of "t1") (Scenario.script [] [Return Scenario.answer]))
    as (r & log & Hr & Hout & _ & _ & Hs & Htrace & Hlog); [lia | reflexivity..|].
  exists r. split; [exact Hr|]. split; [exact Hout|]. split; [exact Hs|].
  rewrite Htrace, Hout in *. cbn in Hlog. by rewrite Hlog.
Defined.

(** [failed_retry_is_reported] where the server redirects again after the
    rebuild. *)
Lemma failed_retry_is_reported_witness :
  ∃ r, query 2 Scenario.mission_query Scenario.no_variables (Scenario.object_of "t0")
         Scenario.expired_then_redirect = Some r ∧
       out r = Raise Scenario.redirect ∧
       logged (trace r) =
         [(ERROR, "Transport server error - Error in Energy Robotics server even after reauthentication")].
Proof.
  apply (failed_retry_is_reported 2 Scenario.mission_query Scenario.no_variables
           (Scenario.object_of "t0") Scenario.expired_then_redirect
           (Scenario.client_of "t0") Scenario.expired
           (Scenario.script [Return "t1"] [Raise Scenario.redirect])
           (Res (Return ()) Scenario.object_rebuilt
                (Scenario.script [] [Raise Scenario.redirect])
                [EvGetAccessToken (Return "t1"); EvBuildAstSchema "type Query";
                 EvConnectSync (Scenario.client_of "t1")
                   (Return (Scenario.client_of "t1"))])
           (Scenario.client_of "t1") Scenario.redirect (Scenario.script [] []));
    [lia | reflexivity..].
Defined.

(** [constructed_client_is_complete] on the client rebuilt with [t1]: the
    next call starts with an attempt on the session of [t1]. *)
Lemma constructed_client_is_complete_witness :
  _reauthenticated Scenario.object_rebuilt = false ∧
  session Scenario.object_rebuilt = Some (Scenario.client_of "t1") ∧
  ∃ r, query 2 Scenario.mission_query Scenario.no_variables Scenario.object_rebuilt
         (Scenario.script [] [Return Scenario.answer]) = Some r ∧
       head (trace r) =
         Some (EvExecute (Scenario.client_of "t1") Scenario.mission_query
                 Scenario.no_variables (Return Scenario.answer)).
Proof.
  destruct (constructed_client_is_complete Scenario.object_rebuilt
              (Scenario.init_trace ++ Scenario.retry_trace) life_after_retry)
    as (Hflag & _ & _ & _ & _ & Hcall).
  split; [exact Hflag|]. split; [reflexivity|].
  destruct (Hcall 2%nat Scenario.mission_query Scenario.no_variables
              (Scenario.script [] [Return Scenario.answer]))
    as (r & s & Hr & Hs & Hhead); [lia|].
  exists r. split; [exact Hr|].
  injection Hs as <-. exact Hhead.
Defined.

(** [client_stays_on_loaded_schema] on the client rebuilt with [t1]. *)
Lemma client_stays_on_loaded_schema_witness :
  ∃ d sch c,
    document Scenario.object_rebuilt = Some d ∧
    build_ast_schema d = Return sch ∧
    schema Scenario.object_rebuilt = Some {| _schema := sch |} ∧
    client Scenario.object_rebuilt = Some c ∧
    client_schema c = sch ∧
    url (transport c) = "https://api.example/graphql".
Proof.
  exact (client_stays_on_loaded_schema Scenario.object_rebuilt
           (Scenario.init_trace ++ Scenario.retry_trace) life_after_retry).
Defined.

(** [client_carries_last_token] on the client rebuilt with [t1]: the last
    token of its life is [t1], and that is the token of its header. *)
Lemma client_carries_last_token_witness :
  last_token (Scenario.init_trace ++ Scenario.retry_trace) = Some "t1" ∧
  headers (transport (Scenario.client_of "t1")) !! "authorization" = Some "Bearer t1".
Proof.
  destruct (client_carries_last_token Scenario.object_rebuilt
              (Scenario.init_trace ++ Scenario.retry_trace) life_after_retry)
    as (c & token & Hc & Hlast & Hheader & _).
  injection Hc as <-.
  assert (token = "t1") as -> by (vm_compute in Hlast; congruence).
  split; [exact Hlast | exact Hheader].
Defined.
